(** * QTrio core: a shallow embedding of [qtrio/_core.py]

    The development follows the layout of the Python module:

    - Python values, exception objects and the [outcome] package
      ([Value] / [Error] with [unwrap]);
    - [Outcomes] and its [unwrap] priority rule;
    - [outcome_from_application_return_code];
    - [Emission], [Emission.is_from] and [Emission.__eq__];
    - the effectful part ([Reenter.event], [Runner.run],
      [Runner.trio_main], [Runner.trio_done]) written in a small
      state-and-exception monad over a process state that carries a
      trace of the calls made to the Qt and Trio collaborators;
    - [open_emissions_channel] over a model of a Trio memory channel
      and nursery. *)

From Stdlib Require Import ZArith List String Bool Lia.
Import ListNotations.
Local Open Scope string_scope.
Local Open Scope list_scope.
Local Open Scope Z_scope.
#[local] Set Warnings "-register-all".

(* ================================================================== *)
(** * Python values *)
(* ================================================================== *)

(** The Python objects that flow through the module as data: results
    of the entry function, arguments emitted by a signal.  [bool] is a
    subclass of [int] in Python ([True == 1]), so booleans are the
    integers [0] and [1] here. *)
Inductive value : Type :=
| VNone
| VInt (n : Z)
| VStr (s : string)
| VTuple (items : list value).

(** Python's [==] on these objects. *)
Fixpoint value_eqb (a b : value) {struct a} : bool :=
  match a, b with
  | VNone, VNone => true
  | VInt n, VInt m => Z.eqb n m
  | VStr s, VStr t => String.eqb s t
  | VTuple xs, VTuple ys =>
      (fix items_eqb (xs ys : list value) {struct xs} : bool :=
         match xs, ys with
         | [], [] => true
         | x :: xs', y :: ys' => value_eqb x y && items_eqb xs' ys'
         | _, _ => false
         end) xs ys
  | _, _ => false
  end.

(** [==] on two argument tuples. *)
Fixpoint tuple_eqb (xs ys : list value) : bool :=
  match xs, ys with
  | [], [] => true
  | x :: xs', y :: ys' => value_eqb x y && tuple_eqb xs' ys'
  | _, _ => false
  end.

(* ================================================================== *)
(** * Exceptions *)
(* ================================================================== *)

(** Modelled from the spec: the exception classes of
    [qtrio/_exceptions.py], which [qtrio/__init__.py] imports and
    [_core.py] raises ([NoOutcomesError], [ReturnCodeError],
    [QTrioException], [RegisterEventTypeError]); the spec's error
    taxonomy names them "no-outcomes error", "host-loop exit error"
    carrying the code, and the internal consistency failure.  The other
    classes are those of the collaborators the module calls: Trio's
    channel and cancellation exceptions, Python's [AttributeError], and
    any exception class of the application. *)
Inductive exc_class : Type :=
| QTrioException
| NoOutcomesError
| RegisterEventTypeError
| ReturnCodeError
| RunnerTimedOutError
| AttributeError
| Cancelled
| ClosedResourceError
| BrokenResourceError
| EndOfChannel
| WouldBlock
| UserException (name : string).

(** An exception object: its class, the arguments it was built with
    ([exc.args]) and its stack context ([exc.__traceback__], one entry
    per frame). *)
Record exception : Type := mkException {
  exc_type : exc_class;
  exc_args : list value;
  exc_traceback : list string
}.

(** [qtrio.NoOutcomesError()] and [qtrio.ReturnCodeError(return_code)]
    as the source constructs them. *)
Definition new_NoOutcomesError : exception :=
  mkException NoOutcomesError [] [].

Definition new_ReturnCodeError (return_code : Z) : exception :=
  mkException ReturnCodeError [VInt return_code] [].

Definition new_QTrioException : exception :=
  mkException QTrioException [] [].

(** What a Python call produces: a returned object or a raised
    exception. *)
Inductive result (A : Type) : Type :=
| Returns (a : A)
| Raises (e : exception).
Arguments Returns {A} a.
Arguments Raises {A} e.

(* ================================================================== *)
(** * The [outcome] package *)
(* ================================================================== *)

Module Outcome.

(** [outcome.Outcome]: either [outcome.Value(value)] or
    [outcome.Error(error)].  The package is a collaborator of the
    module; an outcome here is one that has not been unwrapped
    before, so [unwrap] returns or raises what it holds. *)
Inductive t : Type :=
| Value (v : value)
| Error (error : exception).

(** [Outcome.unwrap()]: return the value or raise the error. *)
Definition unwrap (o : t) : result value :=
  match o with
  | Value v => Returns v
  | Error e => Raises e
  end.

(** [isinstance(o, outcome.Error)]. *)
Definition is_Error (o : t) : bool :=
  match o with
  | Value _ => false
  | Error _ => true
  end.

(** [outcome.capture]: the outcome of a finished call. *)
Definition capture (r : result value) : t :=
  match r with
  | Returns v => Value v
  | Raises e => Error e
  end.

End Outcome.

(* ================================================================== *)
(** * [Outcomes] *)
(* ================================================================== *)

Module Outcomes.

(** [class Outcomes]: a frozen pair of optional outcomes, both
    defaulting to [None]. *)
Record t : Type := mk {
  qt : option Outcome.t;
  trio : option Outcome.t
}.

(** [Outcomes()] *)
Definition empty : t := mk None None.

(** [attr.evolve(outcomes, qt=o)] and [attr.evolve(outcomes, trio=o)]:
    a copy with one field replaced. *)
Definition evolve_qt (self : t) (o : Outcome.t) : t :=
  mk (Some o) (trio self).

Definition evolve_trio (self : t) (o : Outcome.t) : t :=
  mk (qt self) (Some o).

(** [Outcomes.unwrap] *)
Definition unwrap (self : t) : result value :=
  match trio self with
  | Some trio_outcome =>
      (* highest priority to the Trio outcome *)
      match Outcome.unwrap trio_outcome with
      | Raises e => Raises e
      | Returns result =>
          (* we only care if Qt gave an error *)
          match qt self with
          | Some qt_outcome =>
              match Outcome.unwrap qt_outcome with
              | Raises e => Raises e
              | Returns _ => Returns result
              end
          | None => Returns result
          end
      end
  | None =>
      match qt self with
      | Some qt_outcome => Outcome.unwrap qt_outcome
      | None => Raises new_NoOutcomesError
      end
  end.

End Outcomes.

(** [outcome_from_application_return_code] *)
Definition outcome_from_application_return_code (return_code : Z) : Outcome.t :=
  if return_code =? 0
  then Outcome.Value (VInt return_code)
  else Outcome.Error (new_ReturnCodeError return_code).


(* ================================================================== *)
(** * Signals and [Emission] *)
(* ================================================================== *)

(** A bound signal instance ([QtCore.SignalInstance] in PySide2,
    [QtCore.pyqtBoundSignal] in PyQt5), by what the module observes of
    it: the [.signal] attribute and [repr()] that PyQt5 offers, and the
    source that PySide2's [==] on signal instances compares.  Accessing
    [a_qobject.some_signal] twice gives two instance objects with the
    same observations. *)
Record SignalInstance : Type := mkSignal {
  signal_attr : string;
  signal_repr : string;
  signal_source : Z
}.

(** The Qt binding [qtpy] selected: [qtpy.PYQT5], [qtpy.PYSIDE2], or
    neither. *)
Inductive binding : Type :=
| PYQT5
| PYSIDE2
| OtherBinding.

Definition signal_eqb (a b : SignalInstance) : bool :=
  String.eqb (signal_attr a) (signal_attr b)
  && String.eqb (signal_repr a) (signal_repr b)
  && Z.eqb (signal_source a) (signal_source b).

Module Emission.

(** [class Emission]: frozen, [eq=False] (equality is [__eq__] below). *)
Record t : Type := mk {
  signal : SignalInstance;
  args : list value
}.

(** Any Python object that may stand on the right of [emission == x]. *)
Inductive object : Type :=
| AnEmission (e : t)
| AValue (v : value)
| ASignal (s : SignalInstance).

(** [Emission.is_from] *)
Definition is_from (api : binding) (self : t) (signal' : SignalInstance)
  : result bool :=
  match api with
  | PYQT5 =>
      Returns (String.eqb (signal_attr (signal self)) (signal_attr signal')
               && String.eqb (signal_repr (signal self)) (signal_repr signal'))
  | PYSIDE2 =>
      Returns (Z.eqb (signal_source (signal self)) (signal_source signal'))
  | OtherBinding => Raises new_QTrioException
  end.

(** [Emission.__eq__] *)
Definition eq (api : binding) (self : t) (other : object) : result bool :=
  match other with
  | AnEmission other =>
      match is_from api self (signal other) with
      | Raises e => Raises e
      | Returns false => Returns false
      | Returns true => Returns (tuple_eqb (args self) (args other))
      end
  | AValue _ | ASignal _ =>
      (* type(other) != type(self) *)
      Returns false
  end.

End Emission.

(* ================================================================== *)
(** * Callables supplied by the callers *)
(* ================================================================== *)

(** A zero-argument callable handed to [run_sync_soon_threadsafe]:
    calling it returns or raises. *)
Record thunk : Type := mkThunk {
  thunk_name : string;
  thunk_call : result value
}.

(** The user's [done_callback]: called with the [Outcomes]. *)
Record done_callback_t : Type := mkDoneCallback {
  callback_name : string;
  callback_call : Outcomes.t -> result value
}.

(** What happens while the entry function runs, as far as this module
    is concerned: the host emits [lastWindowClosed] while the function
    is suspended, or the function passes a Trio checkpoint (where a
    cancelled enclosing scope raises [trio.Cancelled] in it). *)
Inductive guest_step : Type :=
| LastWindowClosed
| Checkpoint.

(** The async entry function: given its arguments, the steps it goes
    through and how it finishes when it is not cancelled. *)
Record async_fn_t : Type := mkAsyncFn {
  async_fn_name : string;
  async_fn_body : list value -> list guest_step * result value
}.

(** A slot connected to a signal. *)
Inductive slot : Type :=
| CancelScope_cancel (scope : nat)
| OtherSlot (name : string).

Definition slot_eqb (a b : slot) : bool :=
  match a, b with
  | CancelScope_cancel i, CancelScope_cancel j => Nat.eqb i j
  | OtherSlot n, OtherSlot m => String.eqb n m
  | _, _ => false
  end.

(** A [QtCore.QEvent]: its type and the [fn] attribute that
    [create_reenter_event] attaches. *)
Record QEvent : Type := mkQEvent {
  event_type : Z;
  event_fn : option thunk
}.

(** The host application object: whether it quits when the last window
    closes, and the slots connected to its [lastWindowClosed] signal
    (most recent connection first). *)
Record QGuiApplication : Type := mkApplication {
  quitOnLastWindowClosed : bool;
  lastWindowClosed : list slot
}.

(** A [trio.CancelScope]: its identity and whether [cancel()] was
    called on it. *)
Record CancelScope : Type := mkCancelScope {
  scope_id : nat;
  cancel_called : bool
}.

(** The calls the module makes to its collaborators, and the
    assignments to [Runner.outcomes], in program order. *)
Inductive call : Type :=
| CallFn (fn : thunk)
| NewQApplication
| SetQuitOnLastWindowClosed (b : bool)
| StartGuestRun (async_fn : string) (args : list value)
| ApplicationExec
| UnhandledInHostLoop (e : exception)
| PostEvent (ev : QEvent)
| AssignOutcomes (old new : Outcomes.t)
| Print (o : Outcome.t)
| PrintException (type : exc_class) (exc : exception) (tb : list string)
| CallDoneCallback (cb : string) (outcomes : Outcomes.t)
| ApplicationQuit
| CancelScopeEnter (scope : nat)
| CancelScopeExit (scope : nat)
| CancelScopeCancel (scope : nat)
| Connect (s : slot)
| Disconnect (s : slot)
| CallAsyncFn (async_fn : string) (args : list value).

(** [class Reenter(QtCore.QObject)]: the receiver of reenter events; it
    has no state of its own. *)
Inductive Reenter_t : Type :=
| ReenterObject.

(** Modelled from the spec: the context manager [qtrio.connection],
    which [_core.py] calls and whose definition is not in the module.
    The spec's event-source capability gives its contract:
    entering connects the handler to the source, leaving disconnects
    it.  The only signal the Runner connects is the application's
    [lastWindowClosed]. *)
Inductive context_manager : Type :=
| connection_lastWindowClosed (s : slot).

Module Runner.

(** [class Runner] *)
Record t : Type := mk {
  application : option QGuiApplication;
  quit_application : bool;
  reenter : Reenter_t;
  done_callback : option done_callback_t;
  outcomes : Outcomes.t;
  cancel_scope : option CancelScope
}.

(** [Runner(application=..., quit_application=..., done_callback=...)]:
    [outcomes] and [cancel_scope] are [init=False]. *)
Definition new (application : option QGuiApplication)
    (quit_application : bool) (done_callback : option done_callback_t) : t :=
  mk application quit_application ReenterObject done_callback
     Outcomes.empty None.

Definition with_application (r : t) (a : option QGuiApplication) : t :=
  mk a (quit_application r) (reenter r) (done_callback r) (outcomes r)
     (cancel_scope r).

Definition with_outcomes (r : t) (o : Outcomes.t) : t :=
  mk (application r) (quit_application r) (reenter r) (done_callback r) o
     (cancel_scope r).

Definition with_cancel_scope (r : t) (c : option CancelScope) : t :=
  mk (application r) (quit_application r) (reenter r) (done_callback r)
     (outcomes r) c.

End Runner.

(* ================================================================== *)
(** * The process state and the monad of effects *)
(* ================================================================== *)

(** The state the methods act on: the Runner object [self], the open
    [contextlib.ExitStack]s (innermost first, each with the context
    managers it entered, most recent first), the number of
    [trio.CancelScope] objects created so far, and the trace. *)
Record state : Type := mkState {
  self : Runner.t;
  exit_stacks : list (list context_manager);
  scopes_created : nat;
  trace : list call
}.

(** A Python call: from a state to a returned object or a raised
    exception, and the state it leaves (mutations survive a raise). *)
Definition M (A : Type) : Type := state -> result A * state.

Definition ret {A : Type} (a : A) : M A := fun s => (Returns a, s).

Definition raise {A : Type} (e : exception) : M A := fun s => (Raises e, s).

Definition bind {A B : Type} (c : M A) (k : A -> M B) : M B :=
  fun s =>
    match c s with
    | (Returns a, s') => k a s'
    | (Raises e, s') => (Raises e, s')
    end.

Declare Scope py_scope.
Delimit Scope py_scope with py.
Notation "x <- c ;; k" := (bind c (fun x => k))
  (at level 61, c at next level, right associativity) : py_scope.
Notation "c ;; k" := (bind c (fun _ => k))
  (at level 61, right associativity) : py_scope.
Local Open Scope py_scope.

Definition gets {A : Type} (f : state -> A) : M A := fun s => (Returns (f s), s).

Definition modify (f : state -> state) : M unit := fun s => (Returns tt, f s).

Definition set_self (f : Runner.t -> Runner.t) : M unit :=
  modify (fun s => mkState (f (self s)) (exit_stacks s) (scopes_created s) (trace s)).

(** Record one call at the end of the trace. *)
Definition emit (c : call) : M unit :=
  modify (fun s => mkState (self s) (exit_stacks s) (scopes_created s) (trace s ++ [c])).

(** [try: c finally: cleanup] *)
Definition try_finally {A : Type} (c : M A) (cleanup : M unit) : M A :=
  fun s =>
    match c s with
    | (r, s1) =>
        match cleanup s1 with
        | (Returns _, s2) => (r, s2)
        | (Raises e, s2) => (Raises e, s2)
        end
    end.

(** Run [c] and hand back how it finished. *)
Definition attempt {A : Type} (c : M A) : M (result A) :=
  fun s => match c s with (r, s1) => (Returns r, s1) end.

Definition new_AttributeError : exception := mkException AttributeError [] [].

Definition new_Cancelled : exception := mkException Cancelled [] [].

(** [self.application], for a method call on it: a call on [None]
    raises [AttributeError]. *)
Definition the_application : M QGuiApplication :=
  a <- gets (fun s => Runner.application (self s)) ;;
  match a with
  | Some app => ret app
  | None => raise new_AttributeError
  end.

(** [self.outcomes = attr.evolve(self.outcomes, ...)] *)
Definition assign_outcomes (evolve : Outcomes.t -> Outcomes.t) : M unit :=
  old <- gets (fun s => Runner.outcomes (self s)) ;;
  emit (AssignOutcomes old (evolve old)) ;;
  set_self (fun r => Runner.with_outcomes r (evolve old)).

(* ================================================================== *)
(** * Signal connections, exit stacks and cancel scopes *)
(* ================================================================== *)

(** Drop the most recent connection of [sl]. *)
Fixpoint disconnect_slot (sl : slot) (slots : list slot) : list slot :=
  match slots with
  | [] => []
  | x :: rest => if slot_eqb sl x then rest else x :: disconnect_slot sl rest
  end.

Definition set_lastWindowClosed (f : list slot -> list slot) : M unit :=
  app <- the_application ;;
  set_self (fun r =>
    Runner.with_application r
      (Some (mkApplication (quitOnLastWindowClosed app) (f (lastWindowClosed app))))).

(** [__enter__] of [qtrio.connection(signal=lastWindowClosed, slot=sl)] *)
Definition cm_enter (cm : context_manager) : M unit :=
  match cm with
  | connection_lastWindowClosed sl =>
      emit (Connect sl) ;;
      set_lastWindowClosed (fun slots => sl :: slots)
  end.

(** [__exit__] of the same: the connection is severed. *)
Definition cm_exit (cm : context_manager) : M unit :=
  match cm with
  | connection_lastWindowClosed sl =>
      emit (Disconnect sl) ;;
      set_lastWindowClosed (disconnect_slot sl)
  end.

Definition set_exit_stacks (f : list (list context_manager) -> list (list context_manager))
  : M unit :=
  modify (fun s => mkState (self s) (f (exit_stacks s)) (scopes_created s) (trace s)).

(** [exit_stack.enter_context(cm)] on the innermost open stack. *)
Definition enter_context (cm : context_manager) : M unit :=
  cm_enter cm ;;
  set_exit_stacks (fun stacks =>
    match stacks with
    | [] => [[cm]]
    | top :: below => (cm :: top) :: below
    end).

(** Leave every context manager of a stack, last entered first. *)
Fixpoint exit_all (cms : list context_manager) : M unit :=
  match cms with
  | [] => ret tt
  | cm :: rest => try_finally (cm_exit cm) (exit_all rest)
  end.

(** [with contextlib.ExitStack() as exit_stack: body] *)
Definition with_ExitStack {A : Type} (body : M A) : M A :=
  set_exit_stacks (fun stacks => [] :: stacks) ;;
  try_finally body
    (top <- gets (fun s => hd [] (exit_stacks s)) ;;
     set_exit_stacks (@tl _) ;;
     exit_all top).

(** Has [cancel()] been called on scope [id]? *)
Definition scope_cancelled (id : nat) : M bool :=
  c <- gets (fun s => Runner.cancel_scope (self s)) ;;
  match c with
  | Some sc => ret (Nat.eqb (scope_id sc) id && cancel_called sc)
  | None => ret false
  end.

(** [CancelScope.cancel()] on scope [id]. *)
Definition CancelScope_cancel_call (id : nat) : M unit :=
  emit (CancelScopeCancel id) ;;
  set_self (fun r =>
    match Runner.cancel_scope r with
    | Some sc =>
        if Nat.eqb (scope_id sc) id
        then Runner.with_cancel_scope r (Some (mkCancelScope id true))
        else r
    | None => r
    end).

(** [with trio.CancelScope() as self.cancel_scope: body].  The scope
    absorbs the [Cancelled] it caused: the block then ends normally
    with no value ([None] here). *)
Definition with_CancelScope {A : Type} (body : nat -> M A) : M (option A) :=
  id <- gets scopes_created ;;
  modify (fun s => mkState (self s) (exit_stacks s) (S (scopes_created s)) (trace s)) ;;
  emit (CancelScopeEnter id) ;;
  set_self (fun r => Runner.with_cancel_scope r (Some (mkCancelScope id false))) ;;
  r <- attempt (body id) ;;
  cancelled <- scope_cancelled id ;;
  emit (CancelScopeExit id) ;;
  match r with
  | Returns a => ret (Some a)
  | Raises e =>
      match exc_type e with
      | Cancelled => if cancelled then ret None else raise e
      | _ => raise e
      end
  end.

(** Calling one connected slot. *)
Definition call_slot (sl : slot) : M unit :=
  match sl with
  | CancelScope_cancel id => CancelScope_cancel_call id
  | OtherSlot _ => ret tt
  end.

Fixpoint call_slots (slots : list slot) : M unit :=
  match slots with
  | [] => ret tt
  | sl :: rest => call_slot sl ;; call_slots rest
  end.

(** The host emits [application.lastWindowClosed]: the connected slots
    are called in connection order. *)
Definition emit_lastWindowClosed : M unit :=
  app <- the_application ;;
  call_slots (rev (lastWindowClosed app)).

(** The steps of the running entry function, then its own result. *)
Fixpoint run_guest_steps (steps : list guest_step) (final : result value)
  : M value :=
  match steps with
  | [] =>
      match final with
      | Returns v => ret v
      | Raises e => raise e
      end
  | LastWindowClosed :: rest =>
      emit_lastWindowClosed ;;
      run_guest_steps rest final
  | Checkpoint :: rest =>
      c <- gets (fun s => Runner.cancel_scope (self s)) ;;
      match c with
      | Some sc =>
          if cancel_called sc then raise new_Cancelled
          else run_guest_steps rest final
      | None => run_guest_steps rest final
      end
  end.

(** [await async_fn( *args )] *)
Definition await (async_fn : async_fn_t) (args : list value) : M value :=
  emit (CallAsyncFn (async_fn_name async_fn) args) ;;
  run_guest_steps (fst (async_fn_body async_fn args))
                  (snd (async_fn_body async_fn args)).

(* ================================================================== *)
(** * [Reenter] and the methods of [Runner] *)
(* ================================================================== *)

(** [create_reenter_event]; [REENTER_EVENT] is the event type the
    module registered when it was imported. *)
Definition create_reenter_event (REENTER_EVENT : Z) (fn : thunk) : QEvent :=
  mkQEvent REENTER_EVENT (Some fn).

(** [fn()] *)
Definition call_thunk (fn : thunk) : M value :=
  emit (CallFn fn) ;;
  match thunk_call fn with
  | Returns v => ret v
  | Raises e => raise e
  end.

(** [Reenter.event] *)
Definition Reenter_event (self' : Reenter_t) (event : QEvent) : M bool :=
  match event_fn event with
  | Some fn =>
      call_thunk fn ;;
      ret false
  | None => raise new_AttributeError
  end.

(** [Runner.run_sync_soon_threadsafe] *)
Definition run_sync_soon_threadsafe (REENTER_EVENT : Z) (fn : thunk) : M unit :=
  the_application ;;
  emit (PostEvent (create_reenter_event REENTER_EVENT fn)).

(** [Runner.trio_main] *)
Definition trio_main (async_fn : async_fn_t) (args : list value) : M value :=
  r <- with_CancelScope (fun scope =>
         with_ExitStack (
           app <- the_application ;;
           (if quitOnLastWindowClosed app
            then enter_context
                   (connection_lastWindowClosed (CancelScope_cancel scope))
            else ret tt) ;;
           await async_fn args)) ;;
  match r with
  | Some v => ret v
  | None => ret VNone
  end.

(** [self.done_callback(self.outcomes)] *)
Definition call_done_callback (cb : done_callback_t) (o : Outcomes.t) : M unit :=
  emit (CallDoneCallback (callback_name cb) o) ;;
  match callback_call cb o with
  | Returns _ => ret tt
  | Raises e => raise e
  end.

(** [Runner.trio_done] *)
Definition trio_done (run_outcome : Outcome.t) : M unit :=
  assign_outcomes (fun o => Outcomes.evolve_trio o run_outcome) ;;
  emit (Print run_outcome) ;;
  match run_outcome with
  | Outcome.Error exc =>
      emit (PrintException (exc_type exc) exc (exc_traceback exc))
  | Outcome.Value _ => ret tt
  end ;;
  cb <- gets (fun s => Runner.done_callback (self s)) ;;
  match cb with
  | Some cb =>
      o <- gets (fun s => Runner.outcomes (self s)) ;;
      call_done_callback cb o
  | None => ret tt
  end ;;
  q <- gets (fun s => Runner.quit_application (self s)) ;;
  if q then (the_application ;; emit ApplicationQuit) else ret tt.

(** What the host loop does during one [exec_()]: whether the guest
    run finishes while it runs, and the status it exits with. *)
Record host_loop : Type := mkHostLoop {
  guest_finishes : bool;
  return_code : Z
}.

(** The guest run that [trio.lowlevel.start_guest_run] set up: Trio
    runs [trio_main] and calls [trio_done] once with its outcome. *)
Definition guest_run (async_fn : async_fn_t) (args : list value) : M unit :=
  r <- attempt (trio_main async_fn args) ;;
  trio_done (Outcome.capture r).

(** [self.application.exec_()]: the host loop delivers the reenter
    events, which run the guest; an exception that escapes an event
    handler is the host's to report, and the loop goes on to exit with
    its status. *)
Definition exec_ (host : host_loop) (async_fn : async_fn_t) (args : list value)
  : M Z :=
  the_application ;;
  emit ApplicationExec ;;
  (if guest_finishes host
   then r <- attempt (guest_run async_fn args) ;;
        match r with
        | Returns _ => ret tt
        | Raises e => emit (UnhandledInHostLoop e)
        end
   else ret tt) ;;
  ret (return_code host).

(** [Runner.run] *)
Definition run (async_fn : async_fn_t) (args : list value)
    (execute_application : bool) (host : host_loop) : M Outcomes.t :=
  a <- gets (fun s => Runner.application (self s)) ;;
  match a with
  | None =>
      emit NewQApplication ;;
      set_self (fun r => Runner.with_application r (Some (mkApplication true []))) ;;
      emit (SetQuitOnLastWindowClosed false) ;;
      set_self (fun r => Runner.with_application r (Some (mkApplication false [])))
  | Some _ => ret tt
  end ;;
  emit (StartGuestRun (async_fn_name async_fn) args) ;;
  (if execute_application
   then
     return_code <- exec_ host async_fn args ;;
     assign_outcomes (fun o =>
       Outcomes.evolve_qt o (outcome_from_application_return_code return_code))
   else ret tt) ;;
  gets (fun s => Runner.outcomes (self s)).

(** The state in which a new Runner starts. *)
Definition initial_state (r : Runner.t) : state := mkState r [] 0 [].

(* ================================================================== *)
(** * Trio memory channels and [open_emissions_channel] *)
(* ================================================================== *)

Module Channel.

(** The state shared by the two ends that
    [trio.open_memory_channel(max_buffer_size=math.inf)] returns: the
    buffered items, oldest first, and which ends are closed. *)
Record t : Type := mk {
  data : list Emission.t;
  send_closed : bool;
  receive_closed : bool
}.

Definition open_memory_channel : t := mk [] false false.

(** [send_channel.send(value)] on the unbounded buffer: it never has
    to wait. *)
Definition send (value : Emission.t) (ch : t) : result unit * t :=
  if send_closed ch then (Raises (mkException ClosedResourceError [] []), ch)
  else if receive_closed ch then (Raises (mkException BrokenResourceError [] []), ch)
  else (Returns tt, mk (data ch ++ [value]) (send_closed ch) (receive_closed ch)).

(** [receive_channel.receive()].  [WouldBlock] stands for the receiver
    being parked until a sender shows up: with nothing buffered and the
    send end still open, the call does not return. *)
Definition receive (ch : t) : result Emission.t * t :=
  if receive_closed ch then (Raises (mkException ClosedResourceError [] []), ch)
  else
    match data ch with
    | x :: rest => (Returns x, mk rest (send_closed ch) (receive_closed ch))
    | [] =>
        if send_closed ch then (Raises (mkException EndOfChannel [] []), ch)
        else (Raises (mkException WouldBlock [] []), ch)
    end.

(** [send_channel.close()] *)
Definition close_send (ch : t) : t := mk (data ch) true (receive_closed ch).

End Channel.

Module Emissions.

(** What [open_emissions_channel] sets up, and [class Emissions] gives
    access to: the channel, the signals whose emissions are connected
    to [functools.partial(nursery.start_soon, slot, signal)] (in
    connection order), the [slot(signal, *args)] tasks the nursery has
    started and not yet run, whether the nursery is still open, and
    the exception of the first task that failed. *)
Record t : Type := mk {
  channel : Channel.t;
  connected : list SignalInstance;
  pending : list Emission.t;
  nursery_open : bool;
  failure : option exception
}.

(** The nursery's child tasks take their turn: each runs
    [await send_channel.send(Emission(signal=signal, args=args))]; once
    one has failed the nursery is cancelled and the others stop at
    their first checkpoint. *)
Fixpoint run_tasks (tasks : list Emission.t) (ch : Channel.t)
    (failure : option exception) : Channel.t * option exception :=
  match tasks with
  | [] => (ch, failure)
  | e :: rest =>
      match failure with
      | Some _ => run_tasks rest ch failure
      | None =>
          match Channel.send e ch with
          | (Returns _, ch') => run_tasks rest ch' None
          | (Raises exc, ch') => run_tasks rest ch' (Some exc)
          end
      end
  end.

(** A checkpoint of the task that holds the subscription: the
    scheduler runs the pending tasks. *)
Definition checkpoint (st : t) : t :=
  match run_tasks (pending st) (channel st) (failure st) with
  | (ch, f) => mk ch (connected st) [] (nursery_open st) f
  end.

(** The host emits [signal] with [args]: every connected handler calls
    [nursery.start_soon(slot, signal, *args)]. *)
Definition fire (signal : SignalInstance) (args : list value) (st : t) : t :=
  mk (channel st) (connected st)
     (pending st
      ++ map (fun s => Emission.mk s args)
             (filter (signal_eqb signal) (connected st)))
     (nursery_open st) (failure st).

(** [Emissions.aclose]: [send_channel.aclose()] closes the send end,
    then passes a checkpoint. *)
Definition aclose (st : t) : t :=
  checkpoint
    (mk (Channel.close_send (channel st)) (connected st) (pending st)
        (nursery_open st) (failure st)).

(** [await emissions.channel.receive()] *)
Definition receive (st : t) : result Emission.t * t :=
  match Channel.receive (channel st) with
  | (r, ch) => (r, mk ch (connected st) (pending st) (nursery_open st) (failure st))
  end.

End Emissions.

(** [open_emissions_channel], up to its [yield]: the channel is
    created and every signal connected. *)
Definition open_emissions_channel (signals : list SignalInstance) : Emissions.t :=
  Emissions.mk Channel.open_memory_channel signals [] true None.

(** [open_emissions_channel], from its [yield] on, when the block under
    it ends: the [ExitStack] disconnects the signals, the nursery waits
    for its tasks, the send channel is closed; a failed task's
    exception leaves the nursery. *)
Definition close_emissions_channel (st : Emissions.t) : result unit * Emissions.t :=
  let disconnected :=
    Emissions.mk (Emissions.channel st) [] (Emissions.pending st)
                 (Emissions.nursery_open st) (Emissions.failure st) in
  let joined := Emissions.checkpoint disconnected in
  let closed :=
    Emissions.mk (Channel.close_send (Emissions.channel joined)) [] [] false
                 (Emissions.failure joined) in
  match Emissions.failure joined with
  | Some exc => (Raises exc, closed)
  | None => (Returns tt, closed)
  end.

(* ================================================================== *)
(** * The module-level [run] *)
(* ================================================================== *)

Module qtrio.

(** [qtrio.run(async_fn, *args, done_callback=done_callback)]: a new
    Runner with the defaults (no application, [quit_application]
    true), its [run] with the application executed, and the Runner's
    outcomes. *)
Definition run (async_fn : async_fn_t) (args : list value)
    (done_callback : option done_callback_t) (host : host_loop)
  : result Outcomes.t * state :=
  let runner := Runner.new None true done_callback in
  (_ <- run async_fn args true host ;;
   gets (fun s => Runner.outcomes (self s))) (initial_state runner).

End qtrio.

(* ================================================================== *)
(** * [wait_signal] and [wait_signal_context] *)
(* ================================================================== *)

(** What happens, in order, around a task that waits for a signal: the
    host emits the signal with arguments, the task makes its call, or
    the Trio scheduler offers the task its turn (a task parked on an
    event runs again only once the event has been set).  Cancelling
    the waiting task is not part of these timelines. *)
Inductive tick : Type :=
| Emit (args : list value)
| Call
| Turn.

Module wait_signal.

(** The variables of a running [wait_signal]: the flag of
    [event = trio.Event()] and the [nonlocal result] (initially
    [None]). *)
Record frame : Type := mk {
  event : bool;
  result : option (list value)
}.

(** Where the task is: not yet in [wait_signal]; parked in
    [await event.wait()] inside [with qtrio.connection(signal, slot)],
    so with [slot] connected; or returned, the [with] block left and
    [slot] disconnected. *)
Inductive task : Type :=
| NotCalled
| Waiting (f : frame)
| Returned (value : option (list value)).

(** [slot( *args )]: [result = args; event.set()] *)
Definition slot (args : list value) (f : frame) : frame :=
  mk true (Some args).

Definition step (k : task) (t : tick) : task :=
  match k, t with
  | NotCalled, Call => Waiting (mk false None)
  | NotCalled, (Emit _ | Turn) => NotCalled
  | Waiting f, Emit args => Waiting (slot args f)
  | Waiting f, Turn => if event f then Returned (result f) else Waiting f
  | Waiting f, Call => Waiting f
  | Returned r, _ => Returned r
  end.

(** The task after a whole timeline. *)
Definition run (timeline : list tick) : task :=
  fold_left step timeline NotCalled.

End wait_signal.

(** What happens around a task that uses
    [async with wait_signal_context(signal): body]. *)
Inductive context_tick : Type :=
| Enter
| EmitInContext (args : list value)
| BodyReturns
| BodyRaises (e : exception)
| TurnInContext.

Module wait_signal_context.

(** Where the task is: before the [async with]; in the body, at the
    generator's [yield], with the slot connected and the event's flag
    as given; parked in [await event.wait()] after the body, slot
    still connected; or out of the [async with], slot disconnected,
    normally or with the body's exception. *)
Inductive task : Type :=
| NotEntered
| InBody (event : bool)
| WaitingAtExit (event : bool)
| Exited (r : result unit).

Definition step (k : task) (t : context_tick) : task :=
  match k, t with
  | NotEntered, Enter => InBody false
  | NotEntered, _ => NotEntered
  | InBody _, EmitInContext _ => InBody true
  | InBody event, BodyReturns =>
      (* [await event.wait()]: at once when the flag is set *)
      if event then Exited (Returns tt) else WaitingAtExit false
  | InBody _, BodyRaises e => Exited (Raises e)
  | InBody event, (Enter | TurnInContext) => InBody event
  | WaitingAtExit _, EmitInContext _ => WaitingAtExit true
  | WaitingAtExit event, TurnInContext =>
      if event then Exited (Returns tt) else WaitingAtExit event
  | WaitingAtExit event, _ => WaitingAtExit event
  | Exited r, _ => Exited r
  end.

Definition run (timeline : list context_tick) : task :=
  fold_left step timeline NotEntered.

(** A tick that can occur while the body runs and does not end it. *)
Definition within_body (t : context_tick) : bool :=
  match t with
  | EmitInContext _ | TurnInContext => true
  | Enter | BodyReturns | BodyRaises _ => false
  end.

End wait_signal_context.

(* ================================================================== *)
(** * Reading a trace *)
(* ================================================================== *)

(** The assignments to [Runner.outcomes] in a trace, as (old, new)
    pairs in program order. *)
Fixpoint assignments (tr : list call) : list (Outcomes.t * Outcomes.t) :=
  match tr with
  | [] => []
  | AssignOutcomes old new :: rest => (old, new) :: assignments rest
  | _ :: rest => assignments rest
  end.

(** The [Outcomes] the done callback was called with, in order. *)
Fixpoint done_callback_calls (tr : list call) : list Outcomes.t :=
  match tr with
  | [] => []
  | CallDoneCallback _ o :: rest => o :: done_callback_calls rest
  | _ :: rest => done_callback_calls rest
  end.

(** Is this call the creation or a change of the application, or a
    connection to one of its signals? *)
Definition touches_application (c : call) : bool :=
  match c with
  | NewQApplication | SetQuitOnLastWindowClosed _ | Connect _ | Disconnect _ => true
  | _ => false
  end.


(** The host emits several signals, one after the other. *)
Definition fire_all (firings : list (SignalInstance * list value))
    (st : Emissions.t) : Emissions.t :=
  fold_left (fun st f => Emissions.fire (fst f) (snd f) st) firings st.

(** The emissions a firing produces for the subscribed [signals]. *)
Definition emissions_of (signals : list SignalInstance)
    (firing : SignalInstance * list value) : list Emission.t :=
  map (fun s => Emission.mk s (snd firing))
      (filter (signal_eqb (fst firing)) signals).

(** How the steps of the entry function come out, read off
    [run_guest_steps]: [reaches] says whether a slot connected to
    [lastWindowClosed] is the [cancel] of the enclosing scope, and
    [cancelled] whether that scope is cancelled already.  The result
    comes with the final state of the scope. *)
Fixpoint guest_outcome (reaches : bool) (steps : list guest_step)
    (final : result value) (cancelled : bool) : result value * bool :=
  match steps with
  | [] => (final, cancelled)
  | LastWindowClosed :: rest =>
      guest_outcome reaches rest final (cancelled || reaches)
  | Checkpoint :: rest =>
      if cancelled then (Raises new_Cancelled, cancelled)
      else guest_outcome reaches rest final cancelled
  end.

(** Is this slot the [cancel] of scope [n]? *)
Definition cancels_scope (n : nat) (sl : slot) : bool :=
  slot_eqb sl (CancelScope_cancel n).

Definition is_cancel_call (c : call) : bool :=
  match c with
  | CancelScopeCancel _ => true
  | _ => false
  end.

(** [s'] differs from [s] at most by calls of [CancelScope.cancel()]:
    the trace grew by such calls only, and nothing but the state of
    [self.cancel_scope] changed. *)
Definition only_cancels (s s' : state) : Prop :=
  exists (during : list call) (scope : option CancelScope),
    s' = mkState (Runner.with_cancel_scope (self s) scope)
                 (exit_stacks s) (scopes_created s) (trace s ++ during)
    /\ forallb is_cancel_call during = true.

(* ================================================================== *)
(** * Sample collaborators *)
(* ================================================================== *)

(** An application that quits when its last window closes, and an
    entry function during which the last window is closed before it
    reaches a checkpoint. *)
Definition sample_application : QGuiApplication := mkApplication true [].

Definition sample_async_fn : async_fn_t :=
  mkAsyncFn "main" (fun _ => ([LastWindowClosed; Checkpoint], Returns (VInt 5))).

Definition sample_signal : SignalInstance :=
  mkSignal "2moved(int,int)" "<bound signal moved of Widget>" 7.

Definition sample_done_callback : done_callback_t :=
  mkDoneCallback "on_done" (fun _ => Returns VNone).

Definition sample_error : exception :=
  mkException (UserException "ValueError") [VStr "bad"] ["main"].

(* ================================================================== *)
(** * Facts about values and signals *)
(* ================================================================== *)

Lemma value_ind_nested (P : value -> Prop) :
  P VNone ->
  (forall n, P (VInt n)) ->
  (forall s, P (VStr s)) ->
  (forall items, Forall P items -> P (VTuple items)) ->
  forall v, P v.
Proof.
  intros HNone HInt HStr HTuple.
  fix IH 1.
  intros [ | n | s | items].
  - exact HNone.
  - apply HInt.
  - apply HStr.
  - apply HTuple.
    induction items as [ | x xs IHxs]; constructor.
    + apply IH.
    + exact IHxs.
Qed.

Lemma tuple_eqb_unfold (xs ys : list value) :
  value_eqb (VTuple xs) (VTuple ys) = tuple_eqb xs ys.
Proof. reflexivity. Qed.

Lemma value_eqb_eq (a b : value) : value_eqb a b = true <-> a = b.
Proof.
  revert b; induction a as [ | n | s | items IH] using value_ind_nested;
    intros [ | m | t | items'];
    try (simpl; split; [discriminate | discriminate]);
    try (simpl; split; congruence).
  - simpl. rewrite Z.eqb_eq. split; congruence.
  - simpl. rewrite String.eqb_eq. split; congruence.
  - rewrite tuple_eqb_unfold.
    revert items'; induction IH as [ | x xs Hx _ IHxs]; intros [ | y ys]; simpl;
      try (split; congruence).
    rewrite andb_true_iff, Hx, IHxs.
    split; [intros [-> H]; injection H as ->; reflexivity | ].
    intros H; injection H as -> ->; auto.
Qed.

Lemma tuple_eqb_eq (xs ys : list value) : tuple_eqb xs ys = true <-> xs = ys.
Proof.
  rewrite <- tuple_eqb_unfold, value_eqb_eq. split; congruence.
Qed.

Lemma signal_eqb_refl (s : SignalInstance) : signal_eqb s s = true.
Proof.
  unfold signal_eqb. now rewrite !String.eqb_refl, Z.eqb_refl.
Qed.

(* ================================================================== *)
(** * [Outcomes.unwrap] *)
(* ================================================================== *)

(** C1: when the Trio (guest-task) outcome is the failure [e1] and the
    Qt (host-loop) outcome is the failure [e2], [unwrap()] raises [e1]:
    the guest failure has priority and the host failure is not the one
    that surfaces. *)
Theorem unwrap_trio_error_has_priority (e1 e2 : exception) :
  Outcomes.unwrap
    (Outcomes.mk (Some (Outcome.Error e2)) (Some (Outcome.Error e1)))
  = Raises e1.
Proof. reflexivity. Qed.

(** With two different failures, the Qt one is never what [unwrap()]
    raises. *)
Corollary unwrap_qt_error_not_surfaced (e1 e2 : exception) :
  e1 <> e2 ->
  Outcomes.unwrap
    (Outcomes.mk (Some (Outcome.Error e2)) (Some (Outcome.Error e1)))
  <> Raises e2.
Proof.
  intros Hne H. simpl in H. injection H as H. contradiction.
Qed.

(** C2: when the Trio outcome is a success and the Qt outcome is the
    failure [e], [unwrap()] raises [e] and does not return the guest's
    value. *)
Theorem unwrap_qt_error_beats_trio_value (v : value) (e : exception) :
  Outcomes.unwrap
    (Outcomes.mk (Some (Outcome.Error e)) (Some (Outcome.Value v)))
  = Raises e.
Proof. reflexivity. Qed.

(** C3: with both fields unset [unwrap()] raises [NoOutcomesError];
    with only the Trio outcome set, to the success [v], [unwrap()]
    returns [v]. *)
Theorem unwrap_nothing_set_and_trio_value_only :
  Outcomes.unwrap Outcomes.empty = Raises new_NoOutcomesError
  /\ exc_type new_NoOutcomesError = NoOutcomesError
  /\ forall v : value,
       Outcomes.unwrap (Outcomes.mk None (Some (Outcome.Value v))) = Returns v.
Proof.
  split; [reflexivity | split; [reflexivity | ]].
  intros v. reflexivity.
Qed.

(** The two remaining rows of the priority table. *)
Lemma unwrap_qt_only (o : Outcome.t) :
  Outcomes.unwrap (Outcomes.mk (Some o) None) = Outcome.unwrap o.
Proof. reflexivity. Qed.

Lemma unwrap_both_values (v w : value) :
  Outcomes.unwrap
    (Outcomes.mk (Some (Outcome.Value w)) (Some (Outcome.Value v)))
  = Returns v.
Proof. reflexivity. Qed.

(* ================================================================== *)
(** * [outcome_from_application_return_code] *)
(* ================================================================== *)

(** C5: status [0] gives a success outcome that unwraps to [0]; every
    other status [n] gives a failure outcome carrying a
    [ReturnCodeError] that holds [n], and unwrapping raises that
    error. *)
Theorem outcome_from_application_return_code_spec (n : Z) :
  (n = 0 ->
     outcome_from_application_return_code n = Outcome.Value (VInt 0)
     /\ Outcome.unwrap (outcome_from_application_return_code n)
        = Returns (VInt 0))
  /\ (n <> 0 ->
        outcome_from_application_return_code n
        = Outcome.Error (new_ReturnCodeError n)
        /\ exc_type (new_ReturnCodeError n) = ReturnCodeError
        /\ exc_args (new_ReturnCodeError n) = [VInt n]
        /\ Outcome.unwrap (outcome_from_application_return_code n)
           = Raises (new_ReturnCodeError n)).
Proof.
  unfold outcome_from_application_return_code. split.
  - intros ->. split; reflexivity.
  - intros Hn. apply Z.eqb_neq in Hn. rewrite Hn.
    repeat split; reflexivity.
Qed.

Lemma outcome_from_application_return_code_witness :
  3 <> 0
  /\ outcome_from_application_return_code 3
     = Outcome.Error (new_ReturnCodeError 3)
  /\ Outcome.unwrap (outcome_from_application_return_code 0)
     = Returns (VInt 0).
Proof.
  split; [lia | split].
  - apply (proj2 (outcome_from_application_return_code_spec 3)). lia.
  - apply (proj1 (outcome_from_application_return_code_spec 0)). reflexivity.
Defined.

(* ================================================================== *)
(** * [Emission.__eq__] *)
(* ================================================================== *)

(** C10: [emission == x] is [False], and never raises, for every [x]
    that is not an [Emission]; for two emissions it is [True] exactly
    when [is_from] recognises the other's signal and the argument
    tuples are equal. *)
Theorem Emission_eq_type_guarded (api : binding) (e : Emission.t) :
  (forall v : value, Emission.eq api e (Emission.AValue v) = Returns false)
  /\ (forall s : SignalInstance,
        Emission.eq api e (Emission.ASignal s) = Returns false)
  /\ (forall e' : Emission.t,
        Emission.eq api e (Emission.AnEmission e') = Returns true
        <-> Emission.is_from api e (Emission.signal e') = Returns true
            /\ Emission.args e = Emission.args e').
Proof.
  split; [reflexivity | split; [reflexivity | ]].
  intros e'. unfold Emission.eq.
  destruct (Emission.is_from api e (Emission.signal e')) as [[ | ] | exc].
  - split.
    + intros H. injection H as H. apply tuple_eqb_eq in H. auto.
    + intros [_ H]. apply tuple_eqb_eq in H. now rewrite H.
  - split; [discriminate | intros [H _]; discriminate].
  - split; [discriminate | intros [H _]; discriminate].
Qed.

(** Under either supported binding the comparison always returns. *)
Lemma Emission_eq_total (api : binding) (e : Emission.t) (x : Emission.object) :
  api <> OtherBinding ->
  exists b : bool, Emission.eq api e x = Returns b.
Proof.
  intros Hapi. destruct x as [e' | v | s]; simpl; eauto.
  destruct api; simpl; try contradiction;
    match goal with |- context [if ?c then _ else _] => destruct c end; eauto.
Qed.

(** An emission equals itself under either supported binding. *)
Lemma Emission_eq_refl (api : binding) (e : Emission.t) :
  api <> OtherBinding ->
  Emission.eq api e (Emission.AnEmission e) = Returns true.
Proof.
  intros Hapi. unfold Emission.eq.
  destruct api; simpl; try contradiction.
  - rewrite !String.eqb_refl. simpl.
    now rewrite (proj2 (tuple_eqb_eq _ _) eq_refl).
  - rewrite Z.eqb_refl.
    now rewrite (proj2 (tuple_eqb_eq _ _) eq_refl).
Qed.

(* ================================================================== *)
(** * [Reenter.event] *)
(* ================================================================== *)

(** C7: for every reenter event, [Reenter.event] calls the carried
    [fn] exactly once and, [fn()] having returned, returns [False] to
    the host; it touches nothing else.  (An exception raised by [fn]
    is not caught: it leaves the handler after that one call.) *)
Theorem Reenter_event_calls_fn_once_returns_False
    (REENTER_EVENT : Z) (fn : thunk) (s : state) :
  let out := Reenter_event ReenterObject (create_reenter_event REENTER_EVENT fn) s in
  trace (snd out) = trace s ++ [CallFn fn]
  /\ self (snd out) = self s
  /\ (forall v : value, thunk_call fn = Returns v -> fst out = Returns false)
  /\ (forall e : exception, thunk_call fn = Raises e -> fst out = Raises e).
Proof.
  unfold Reenter_event, create_reenter_event, call_thunk, bind, emit, modify, ret, raise.
  simpl. destruct (thunk_call fn) as [v | e]; simpl;
    repeat split; intros; congruence.
Qed.

Lemma Reenter_event_witness :
  fst (Reenter_event ReenterObject
         (create_reenter_event 1000 (mkThunk "guest_tick" (Returns VNone)))
         (initial_state (Runner.new None true None)))
  = Returns false.
Proof.
  apply (proj1 (proj2 (proj2
    (Reenter_event_calls_fn_once_returns_False 1000
       (mkThunk "guest_tick" (Returns VNone))
       (initial_state (Runner.new None true None))))) VNone).
  reflexivity.
Defined.

(** X24: [run_sync_soon_threadsafe] posts one reenter event carrying
    [fn] and does not call [fn] itself; that event, delivered to the
    Runner's receiver, calls [fn] once. *)
Lemma posted_event_calls_fn
    (REENTER_EVENT : Z) (fn : thunk) (s : state) (app : QGuiApplication) :
  Runner.application (self s) = Some app ->
  let posted := snd (run_sync_soon_threadsafe REENTER_EVENT fn s) in
  trace posted = trace s ++ [PostEvent (create_reenter_event REENTER_EVENT fn)]
  /\ trace (snd (Reenter_event (Runner.reenter (self posted))
                   (create_reenter_event REENTER_EVENT fn) posted))
     = trace posted ++ [CallFn fn].
Proof.
  intros Happ.
  unfold run_sync_soon_threadsafe, Reenter_event, create_reenter_event,
    call_thunk, the_application, bind, gets, emit, modify, ret, raise.
  simpl. rewrite Happ. simpl.
  destruct (thunk_call fn); simpl; auto.
Qed.

(* ================================================================== *)
(** * [Runner.trio_done] *)
(* ================================================================== *)

(** [trio_done] replaces the [trio] field and leaves [qt] as it was,
    whatever else happens. *)
Lemma trio_done_outcomes (o : Outcome.t) (s : state) :
  Runner.outcomes (self (snd (trio_done o s)))
  = Outcomes.evolve_trio (Runner.outcomes (self s)) o.
Proof.
  destruct s as [[a q re dc outs cs] stacks n tr].
  unfold trio_done, assign_outcomes, call_done_callback, the_application,
    bind, gets, emit, set_self, modify, ret, raise; simpl.
  destruct o as [v | exc]; simpl;
    (destruct dc as [cb | ]; simpl;
     [destruct (callback_call cb _); simpl | ]);
    try reflexivity;
    destruct q; simpl; try reflexivity;
    destruct a; reflexivity.
Qed.

(** X22: for a successful guest run nothing but the outcome line is
    printed, no traceback; the callback is then called once with the
    recorded outcomes and, when it has returned, the application is
    asked to quit. *)
Lemma trio_done_on_success
    (s : state) (v : value) (cb : done_callback_t) (app : QGuiApplication) :
  Runner.done_callback (self s) = Some cb ->
  Runner.quit_application (self s) = true ->
  Runner.application (self s) = Some app ->
  callback_call cb
    (Outcomes.evolve_trio (Runner.outcomes (self s)) (Outcome.Value v))
  = Returns VNone ->
  trace (snd (trio_done (Outcome.Value v) s))
  = trace s
    ++ [AssignOutcomes (Runner.outcomes (self s))
          (Outcomes.evolve_trio (Runner.outcomes (self s)) (Outcome.Value v));
        Print (Outcome.Value v);
        CallDoneCallback (callback_name cb)
          (Outcomes.evolve_trio (Runner.outcomes (self s)) (Outcome.Value v));
        ApplicationQuit].
Proof.
  destruct s as [[a q re dc outs cs] stacks n tr]; simpl.
  intros -> -> -> Hcb.
  unfold trio_done, assign_outcomes, call_done_callback, the_application,
    bind, gets, emit, set_self, modify, ret, raise; simpl.
  rewrite Hcb. simpl.
  now rewrite <- !app_assoc.
Qed.

(** X23: with [quit_application] false, [trio_done] never asks the
    application to quit, whatever the outcome and the callback. *)
Lemma trio_done_without_quit (s : state) (o : Outcome.t) :
  Runner.quit_application (self s) = false ->
  ~ In ApplicationQuit (trace s) ->
  ~ In ApplicationQuit (trace (snd (trio_done o s))).
Proof.
  destruct s as [[a q re dc outs cs] stacks n tr]; simpl.
  intros -> Hin.
  unfold trio_done, assign_outcomes, call_done_callback, the_application,
    bind, gets, emit, set_self, modify, ret, raise; simpl.
  destruct o as [v | exc]; simpl;
    (destruct dc as [cb | ]; simpl;
     [destruct (callback_call cb _); simpl | ]);
    rewrite ?in_app_iff; simpl; intuition discriminate.
Qed.

(** C4: called with the failure [exc] of the entry function,
    [trio_done] records it in [outcomes.trio], prints the outcome and
    the exception with its traceback, calls [done_callback] exactly
    once with those outcomes, and asks the application to quit only
    after the callback has returned. *)
Theorem trio_done_on_failure
    (s : state) (exc : exception) (cb : done_callback_t) (app : QGuiApplication) :
  Runner.done_callback (self s) = Some cb ->
  Runner.quit_application (self s) = true ->
  Runner.application (self s) = Some app ->
  let recorded :=
    Outcomes.evolve_trio (Runner.outcomes (self s)) (Outcome.Error exc) in
  let out := trio_done (Outcome.Error exc) s in
  Runner.outcomes (self (snd out)) = recorded
  /\ Outcomes.trio recorded = Some (Outcome.Error exc)
  /\ trace (snd out)
     = trace s
       ++ [AssignOutcomes (Runner.outcomes (self s)) recorded;
           Print (Outcome.Error exc);
           PrintException (exc_type exc) exc (exc_traceback exc);
           CallDoneCallback (callback_name cb) recorded]
       ++ match callback_call cb recorded with
          | Returns _ => [ApplicationQuit]
          | Raises _ => []
          end
  /\ fst out
     = match callback_call cb recorded with
       | Returns _ => Returns tt
       | Raises e => Raises e
       end.
Proof.
  destruct s as [[a q re dc outs cs] stacks n tr]; simpl.
  intros -> -> ->.
  unfold trio_done, assign_outcomes, call_done_callback, the_application,
    bind, gets, emit, set_self, modify, ret, raise; simpl.
  destruct (callback_call cb _) as [v | e]; simpl;
    rewrite <- ?app_assoc; simpl; repeat split; reflexivity.
Qed.

Lemma trio_done_on_failure_witness :
  trace (snd (trio_done
                (Outcome.Error (mkException (UserException "ValueError") [VStr "bad"] ["main"]))
                (initial_state
                   (Runner.new (Some (mkApplication false [])) true
                      (Some (mkDoneCallback "on_done" (fun _ => Returns VNone)))))))
  = [AssignOutcomes Outcomes.empty
       (Outcomes.mk None
          (Some (Outcome.Error (mkException (UserException "ValueError") [VStr "bad"] ["main"]))));
     Print (Outcome.Error (mkException (UserException "ValueError") [VStr "bad"] ["main"]));
     PrintException (UserException "ValueError")
       (mkException (UserException "ValueError") [VStr "bad"] ["main"]) ["main"];
     CallDoneCallback "on_done"
       (Outcomes.mk None
          (Some (Outcome.Error (mkException (UserException "ValueError") [VStr "bad"] ["main"]))));
     ApplicationQuit].
Proof.
  apply (proj1 (proj2 (proj2
    (trio_done_on_failure
       (initial_state
          (Runner.new (Some (mkApplication false [])) true
             (Some (mkDoneCallback "on_done" (fun _ => Returns VNone)))))
       (mkException (UserException "ValueError") [VStr "bad"] ["main"])
       (mkDoneCallback "on_done" (fun _ => Returns VNone))
       (mkApplication false [])
       eq_refl eq_refl eq_refl)))).
Defined.

(* ================================================================== *)
(** * [Runner.trio_main] *)
(* ================================================================== *)

Lemma with_cancel_scope_same (r : Runner.t) :
  Runner.with_cancel_scope r (Runner.cancel_scope r) = r.
Proof. destruct r; reflexivity. Qed.

Lemma only_cancels_refl (s : state) : only_cancels s s.
Proof.
  exists [], (Runner.cancel_scope (self s)).
  rewrite with_cancel_scope_same, app_nil_r. destruct s; auto.
Qed.

Lemma only_cancels_trans (s1 s2 s3 : state) :
  only_cancels s1 s2 -> only_cancels s2 s3 -> only_cancels s1 s3.
Proof.
  intros (d1 & c1 & -> & H1) (d2 & c2 & -> & H2).
  exists (d1 ++ d2), c2. simpl. rewrite app_assoc, forallb_app, H1, H2. auto.
Qed.

Lemma call_slot_only_cancels (sl : slot) (s : state) :
  fst (call_slot sl s) = Returns tt /\ only_cancels s (snd (call_slot sl s)).
Proof.
  destruct sl as [id | name]; simpl.
  - split; [reflexivity | ].
    unfold CancelScope_cancel_call, bind, emit, set_self, modify; simpl.
    destruct (Runner.cancel_scope (self s)) as [sc | ] eqn:E.
    + destruct (Nat.eqb (scope_id sc) id).
      * exists [CancelScopeCancel id], (Some (mkCancelScope id true)). auto.
      * exists [CancelScopeCancel id], (Some sc).
        rewrite <- E, with_cancel_scope_same. auto.
    + exists [CancelScopeCancel id], None.
      rewrite <- E, with_cancel_scope_same. auto.
  - split; [reflexivity | apply only_cancels_refl].
Qed.

Lemma call_slots_only_cancels (slots : list slot) (s : state) :
  fst (call_slots slots s) = Returns tt /\ only_cancels s (snd (call_slots slots s)).
Proof.
  revert s; induction slots as [ | sl rest IH]; intros s; simpl.
  - split; [reflexivity | apply only_cancels_refl].
  - unfold bind.
    destruct (call_slot_only_cancels sl s) as [Hr Hs].
    destruct (call_slot sl s) as [r s1]; simpl in *; subst r.
    destruct (IH s1) as [Hr' Hs'].
    split; [exact Hr' | eapply only_cancels_trans; eassumption].
Qed.

Lemma run_guest_steps_only_cancels
    (steps : list guest_step) (final : result value) (s : state) :
  only_cancels s (snd (run_guest_steps steps final s)).
Proof.
  revert s; induction steps as [ | step rest IH]; intros s; simpl.
  - destruct final; apply only_cancels_refl.
  - destruct step.
    + unfold emit_lastWindowClosed, the_application, bind, gets; simpl.
      destruct (Runner.application (self s)) as [app | ]; simpl;
        [ | apply only_cancels_refl].
      destruct (call_slots_only_cancels (rev (lastWindowClosed app)) s) as [Hr Hs].
      destruct (call_slots (rev (lastWindowClosed app)) s) as [r s1];
        simpl in *; subst r.
      eapply only_cancels_trans; [exact Hs | apply IH].
    + unfold bind, gets; simpl.
      destruct (Runner.cancel_scope (self s)) as [sc | ]; [ | apply IH].
      destruct (cancel_called sc); [apply only_cancels_refl | apply IH].
Qed.

(** The state [trio_main] leaves, spelled out: one scope entered and
    left around the call, the connection made before the call when the
    application quits on the last window closed and severed after it,
    and in between nothing but calls of the scope's [cancel]. *)
Lemma trio_main_state
    (async_fn : async_fn_t) (args : list value) (s : state) (app : QGuiApplication) :
  Runner.application (self s) = Some app ->
  exists (during : list call) (scope : option CancelScope),
    forallb is_cancel_call during = true
    /\ snd (trio_main async_fn args s)
       = mkState (Runner.with_cancel_scope (self s) scope)
           (exit_stacks s) (S (scopes_created s))
           (trace s
            ++ [CancelScopeEnter (scopes_created s)]
            ++ (if quitOnLastWindowClosed app
                then [Connect (CancelScope_cancel (scopes_created s))] else [])
            ++ [CallAsyncFn (async_fn_name async_fn) args]
            ++ during
            ++ (if quitOnLastWindowClosed app
                then [Disconnect (CancelScope_cancel (scopes_created s))] else [])
            ++ [CancelScopeExit (scopes_created s)]).
Proof.
  destruct s as [[a q re dc outs cs] stacks n tr]; simpl.
  intros ->. destruct app as [quits slots].
  unfold trio_main, await.
  generalize (fst (async_fn_body async_fn args)) as steps.
  generalize (snd (async_fn_body async_fn args)) as final.
  intros final steps.
  destruct quits; simpl;
    unfold with_CancelScope, with_ExitStack, enter_context, cm_enter,
      set_lastWindowClosed, the_application, set_exit_stacks, try_finally,
      attempt, bind, gets, emit, set_self, modify, ret; simpl;
    match goal with
    | |- context [run_guest_steps steps final ?s1] =>
        pose proof (run_guest_steps_only_cancels steps final s1) as H;
        destruct (run_guest_steps steps final s1) as [r s2]
    end;
    simpl in H; destruct H as (during & scope & -> & Hd); simpl;
    rewrite ?Nat.eqb_refl; simpl;
    exists during, scope; (split; [exact Hd | ]);
    unfold scope_cancelled, bind, gets, ret, raise; simpl;
    destruct scope as [[sid c] | ]; simpl;
    destruct r as [v | e]; simpl;
    try destruct (exc_type e); simpl;
    try destruct (Nat.eqb sid n && c); simpl;
    rewrite <- ?app_assoc; reflexivity.
Qed.

(** C6: [trio_main] enters exactly one cancel scope around the call of
    the entry function; before the call, the application's
    [lastWindowClosed] is connected to that scope's [cancel] exactly
    when the application then has [quitOnLastWindowClosed()]; and
    however the entry function finishes (returning, raising, or
    cancelled), the connection is severed before the scope is left,
    which leaves the application's connections as they were. *)
Theorem trio_main_one_scope_and_scoped_connection
    (async_fn : async_fn_t) (args : list value) (s : state) (app : QGuiApplication) :
  Runner.application (self s) = Some app ->
  let s' := snd (trio_main async_fn args s) in
  let scope := scopes_created s in
  let link := CancelScope_cancel scope in
  exists during : list call,
    forallb is_cancel_call during = true
    /\ trace s'
       = trace s
         ++ [CancelScopeEnter scope]
         ++ (if quitOnLastWindowClosed app then [Connect link] else [])
         ++ [CallAsyncFn (async_fn_name async_fn) args]
         ++ during
         ++ (if quitOnLastWindowClosed app then [Disconnect link] else [])
         ++ [CancelScopeExit scope]
    /\ scopes_created s' = S scope
    /\ Runner.application (self s') = Some app
    /\ exit_stacks s' = exit_stacks s.
Proof.
  intros Happ.
  destruct (trio_main_state async_fn args s app Happ)
    as (during & sc & Hd & Hs).
  simpl. rewrite Hs. simpl. exists during. auto.
Qed.

Lemma trio_main_witness :
  exists during : list call,
    forallb is_cancel_call during = true
    /\ trace (snd (trio_main sample_async_fn []
                     (initial_state (Runner.new (Some sample_application) true None))))
       = [] ++ [CancelScopeEnter 0%nat]
         ++ [Connect (CancelScope_cancel 0)]
         ++ [CallAsyncFn "main" []]
         ++ during
         ++ [Disconnect (CancelScope_cancel 0)]
         ++ [CancelScopeExit 0%nat]
    /\ scopes_created
         (snd (trio_main sample_async_fn []
                 (initial_state (Runner.new (Some sample_application) true None))))
       = 1%nat
    /\ Runner.application
         (self (snd (trio_main sample_async_fn []
                       (initial_state (Runner.new (Some sample_application) true None)))))
       = Some sample_application
    /\ exit_stacks
         (snd (trio_main sample_async_fn []
                 (initial_state (Runner.new (Some sample_application) true None))))
       = [].
Proof.
  exact (trio_main_one_scope_and_scoped_connection sample_async_fn []
           (initial_state (Runner.new (Some sample_application) true None))
           sample_application eq_refl).
Defined.

(** Closing the last window while the entry function runs cancels it:
    the scope's [cancel] is called through the connection, the entry
    function is cancelled at its next checkpoint, and [trio_main]
    returns [None]. *)
Example trio_main_cancelled_by_last_window :
  trio_main sample_async_fn []
    (initial_state (Runner.new (Some sample_application) true None))
  = (Returns VNone,
     mkState
       (Runner.mk (Some sample_application) true ReenterObject None
          Outcomes.empty (Some (mkCancelScope 0 true)))
       [] 1
       [CancelScopeEnter 0%nat; Connect (CancelScope_cancel 0);
        CallAsyncFn "main" []; CancelScopeCancel 0%nat;
        Disconnect (CancelScope_cancel 0); CancelScopeExit 0%nat]).
Proof. reflexivity. Qed.

(* ================================================================== *)
(** * [Runner.run] and the two producers of [Outcomes] *)
(* ================================================================== *)

Lemma assignments_app (a b : list call) :
  assignments (a ++ b) = assignments a ++ assignments b.
Proof.
  induction a as [ | c a IH]; simpl; [reflexivity | ].
  destruct c; simpl; rewrite IH; reflexivity.
Qed.

Lemma assignments_cancels (during : list call) :
  forallb is_cancel_call during = true -> assignments during = [].
Proof.
  induction during as [ | c rest IH]; simpl; [reflexivity | ].
  destruct c; simpl; try discriminate. exact IH.
Qed.

Ltac assignments_norm Hd :=
  repeat (rewrite assignments_app; simpl);
  rewrite ?(assignments_cancels _ Hd); simpl;
  rewrite ?app_nil_r.

(** [trio_main] assigns nothing to [self.outcomes]. *)
Lemma trio_main_assigns_nothing
    (async_fn : async_fn_t) (args : list value) (s : state) (app : QGuiApplication) :
  Runner.application (self s) = Some app ->
  assignments (trace (snd (trio_main async_fn args s))) = assignments (trace s)
  /\ Runner.outcomes (self (snd (trio_main async_fn args s)))
     = Runner.outcomes (self s).
Proof.
  intros Happ.
  destruct (trio_main_state async_fn args s app Happ)
    as (during & sc & Hd & Hs).
  rewrite Hs. simpl. split; [ | reflexivity].
  destruct (quitOnLastWindowClosed app); simpl; assignments_norm Hd; reflexivity.
Qed.

(** The assignment at the end of [run] replaces the [qt] field and
    leaves [trio] as it was. *)
Lemma assign_qt_keeps_trio (o : Outcome.t) (s : state) :
  Outcomes.trio
    (Runner.outcomes
       (self (snd (assign_outcomes (fun old => Outcomes.evolve_qt old o) s))))
  = Outcomes.trio (Runner.outcomes (self s))
  /\ Outcomes.qt
       (Runner.outcomes
          (self (snd (assign_outcomes (fun old => Outcomes.evolve_qt old o) s))))
     = Some o.
Proof. split; reflexivity. Qed.

(** C9: a Runner starts with both fields of its [Outcomes] unset.
    During [run()], with the host loop executed, [self.outcomes] is
    assigned by [trio_done] once if the guest finishes while the loop
    runs (the [trio] field goes from unset to the guest's outcome, [qt]
    stays unset) and by [run] once when [exec_()] has returned (the
    [qt] field goes from unset to the outcome of the return code,
    [trio] stays as recorded); no assignment replaces a field that was
    already set. *)
Theorem run_sets_each_outcome_once
    (app : option QGuiApplication) (quit : bool) (cb : option done_callback_t)
    (async_fn : async_fn_t) (args : list value) (host : host_loop) :
  let r := Runner.new app quit cb in
  let out := run async_fn args true host (initial_state r) in
  let qt_outcome := outcome_from_application_return_code (return_code host) in
  Runner.outcomes r = Outcomes.mk None None
  /\ exists guest : Outcome.t,
       let trio_field := if guest_finishes host then Some guest else None in
       assignments (trace (snd out))
       = (if guest_finishes host
          then [(Outcomes.mk None None, Outcomes.mk None (Some guest))]
          else [])
         ++ [(Outcomes.mk None trio_field,
              Outcomes.mk (Some qt_outcome) trio_field)]
       /\ fst out = Returns (Outcomes.mk (Some qt_outcome) trio_field)
       /\ Runner.outcomes (self (snd out))
          = Outcomes.mk (Some qt_outcome) trio_field.
Proof.
  simpl. split; [reflexivity | ].
  unfold run, exec_, guest_run, the_application, attempt, assign_outcomes,
    initial_state, Runner.new, bind, gets, emit, set_self, modify, ret, raise.
  destruct (guest_finishes host); simpl.
  2: { exists (Outcome.Value VNone). destruct app; simpl; auto. }
  destruct app as [a | ]; simpl.
  - match goal with
    | |- context [trio_main async_fn args ?s1] =>
        destruct (trio_main_state async_fn args s1 a eq_refl)
          as (during & sc & Hd & Hs);
        destruct (trio_main async_fn args s1) as [res s2]
    end.
    simpl in Hs. subst s2. exists (Outcome.capture res).
    unfold trio_done, assign_outcomes, call_done_callback, the_application,
      bind, gets, emit, set_self, modify, ret, raise; simpl.
    destruct res as [v | e]; simpl;
      (destruct cb as [c | ]; simpl;
       [destruct (callback_call c _); simpl | ]);
      destruct quit; simpl;
      destruct (quitOnLastWindowClosed a); simpl;
      assignments_norm Hd; auto.
  - match goal with
    | |- context [trio_main async_fn args ?s1] =>
        destruct (trio_main_state async_fn args s1 (mkApplication false []) eq_refl)
          as (during & sc & Hd & Hs);
        destruct (trio_main async_fn args s1) as [res s2]
    end.
    simpl in Hs. subst s2. exists (Outcome.capture res).
    unfold trio_done, assign_outcomes, call_done_callback, the_application,
      bind, gets, emit, set_self, modify, ret, raise; simpl.
    destruct res as [v | e]; simpl;
      (destruct cb as [c | ]; simpl;
       [destruct (callback_call c _); simpl | ]);
      destruct quit; simpl;
      assignments_norm Hd; auto.
Qed.

(** Without executing the application, [run] assigns nothing and
    returns the empty [Outcomes]. *)
Lemma run_without_exec
    (app : option QGuiApplication) (quit : bool) (cb : option done_callback_t)
    (async_fn : async_fn_t) (args : list value) (host : host_loop) :
  let out := run async_fn args false host (initial_state (Runner.new app quit cb)) in
  fst out = Returns Outcomes.empty /\ assignments (trace (snd out)) = [].
Proof.
  destruct app; split; reflexivity.
Qed.

(* ================================================================== *)
(** * [open_emissions_channel] *)
(* ================================================================== *)

(** Once the subscription is closed a receive never waits: it gives a
    buffered emission or reports the end of the channel (or that the
    receive end itself was closed). *)
Lemma receive_after_close_never_blocks (st : Emissions.t) :
  match fst (Emissions.receive (snd (close_emissions_channel st))) with
  | Returns _ => True
  | Raises e => exc_type e <> WouldBlock
  end.
Proof.
  unfold close_emissions_channel, Emissions.checkpoint. simpl.
  destruct (Emissions.run_tasks _ _ _) as [ch f]. simpl.
  assert (H : match fst (Channel.receive (Channel.close_send ch)) with
              | Returns _ => True
              | Raises e => exc_type e <> WouldBlock
              end).
  { unfold Channel.receive, Channel.close_send. simpl.
    destruct (Channel.receive_closed ch); simpl; [discriminate | ].
    destruct (Channel.data ch); simpl; [discriminate | exact I]. }
  destruct f; unfold Emissions.receive; simpl;
    destruct (Channel.receive (Channel.close_send ch)); exact H.
Qed.

(** C8, as stated, fails: after the source fired with [(1, 2)] and the
    subscription was closed, the receive returns that emission; it
    does not observe the closed channel. *)
Lemma receive_after_close_returns_queued_emission :
  fst (Emissions.receive
         (snd (close_emissions_channel
                 (Emissions.fire sample_signal [VInt 1; VInt 2]
                    (open_emissions_channel [sample_signal])))))
  = Returns (Emission.mk sample_signal [VInt 1; VInt 2])
  /\ fst (Emissions.receive
            (snd (close_emissions_channel
                    (Emissions.fire sample_signal [VInt 1; VInt 2]
                       (open_emissions_channel [sample_signal])))))
     <> Raises (mkException EndOfChannel [] []).
Proof.
  split; [reflexivity | discriminate].
Qed.

(** C8, amended: when a subscription is opened on a source, the source
    fires with [args] and the subscription is then closed, closing
    succeeds, the next receive returns the queued emission of that
    source with those arguments, and the receive after it observes the
    closed channel ([EndOfChannel]); neither receive waits. *)
Theorem emission_queued_before_close_is_received_then_closed
    (source : SignalInstance) (args : list value) :
  let closed :=
    close_emissions_channel
      (Emissions.fire source args (open_emissions_channel [source])) in
  let first := Emissions.receive (snd closed) in
  let second := Emissions.receive (snd first) in
  fst closed = Returns tt
  /\ fst first = Returns (Emission.mk source args)
  /\ fst second = Raises (mkException EndOfChannel [] []).
Proof.
  unfold close_emissions_channel, open_emissions_channel, Emissions.fire,
    Emissions.checkpoint, Emissions.receive.
  simpl. rewrite signal_eqb_refl. simpl. auto.
Qed.

(** [Emissions.aclose()] called right after the source fired, before
    the started task had its turn: the task's [send] then fails with
    [ClosedResourceError], nothing is buffered, and a receive observes
    the closed channel. *)
Example aclose_before_the_task_runs :
  let st := Emissions.aclose
              (Emissions.fire sample_signal [VInt 1; VInt 2]
                 (open_emissions_channel [sample_signal])) in
  Emissions.failure st = Some (mkException ClosedResourceError [] [])
  /\ fst (Emissions.receive st) = Raises (mkException EndOfChannel [] []).
Proof. split; reflexivity. Qed.

(** [Emissions.aclose()] called after the task had its turn: the
    emission is buffered and a receive returns it. *)
Example aclose_after_the_task_ran :
  let st := Emissions.aclose
              (Emissions.checkpoint
                 (Emissions.fire sample_signal [VInt 1; VInt 2]
                    (open_emissions_channel [sample_signal]))) in
  Emissions.failure st = None
  /\ fst (Emissions.receive st)
     = Returns (Emission.mk sample_signal [VInt 1; VInt 2]).
Proof. split; reflexivity. Qed.

(** Emissions of two sources are received in the order they fired. *)
Example emissions_keep_firing_order (a b : SignalInstance) (x y : list value) :
  signal_eqb a b = false ->
  signal_eqb b a = false ->
  Channel.data
    (Emissions.channel
       (Emissions.checkpoint
          (Emissions.fire b y
             (Emissions.fire a y
                (Emissions.fire b x
                   (Emissions.fire a x (open_emissions_channel [a; b])))))))
  = [Emission.mk a x; Emission.mk b x; Emission.mk a y; Emission.mk b y].
Proof.
  intros Hab Hba.
  unfold Emissions.checkpoint, Emissions.fire, open_emissions_channel. simpl.
  rewrite !signal_eqb_refl, Hab, Hba. reflexivity.
Qed.

(* ================================================================== *)
(** * More on [Outcomes.unwrap] *)
(* ================================================================== *)

(** X1: [unwrap()] returns [v] exactly when [v] is the Trio value and
    Qt recorded no error, or when Trio recorded nothing and [v] is the
    Qt value; and it raises [e] exactly when [e] is the Trio error, or
    the Qt error with no Trio error recorded, or nothing is recorded
    and [e] is the [NoOutcomesError].  A Qt value is never returned in
    place of a Trio value, and no error is swallowed. *)
Theorem unwrap_characterised (o : Outcomes.t) :
  (forall v : value,
     Outcomes.unwrap o = Returns v
     <-> (Outcomes.trio o = Some (Outcome.Value v)
          /\ forall e, Outcomes.qt o <> Some (Outcome.Error e))
         \/ (Outcomes.trio o = None
             /\ Outcomes.qt o = Some (Outcome.Value v)))
  /\ (forall e : exception,
        Outcomes.unwrap o = Raises e
        <-> Outcomes.trio o = Some (Outcome.Error e)
            \/ (Outcomes.qt o = Some (Outcome.Error e)
                /\ forall e', Outcomes.trio o <> Some (Outcome.Error e'))
            \/ (Outcomes.trio o = None /\ Outcomes.qt o = None
                /\ e = new_NoOutcomesError)).
Proof.
  destruct o as [[[w | eq] | ] [[v' | et] | ]]; unfold Outcomes.unwrap; simpl;
    split; intros x; split;
    try (intros H; injection H as <-);
    try discriminate;
    try (intros [[H1 H2] | [H1 H2]]; try discriminate;
         try (injection H1 as <-); try (injection H2 as <-);
         try reflexivity; exfalso; eapply H2; reflexivity);
    try (intros [H | [[H1 H2] | (H1 & H2 & H3)]]; try discriminate;
         try (injection H as <-); try (injection H1 as <-);
         try reflexivity; try (subst; reflexivity);
         exfalso; eapply H2; reflexivity);
    try (left; split; [reflexivity | intros e He; discriminate]);
    try (right; split; reflexivity);
    try (left; reflexivity);
    try (right; left; split; [reflexivity | intros e' He; discriminate]);
    try (right; right; repeat split; reflexivity).
Qed.

(* ================================================================== *)
(** * More on [Emission.__eq__] *)
(* ================================================================== *)

Lemma tuple_eqb_sym (xs ys : list value) : tuple_eqb xs ys = tuple_eqb ys xs.
Proof.
  destruct (tuple_eqb xs ys) eqn:E1, (tuple_eqb ys xs) eqn:E2; try reflexivity.
  - apply tuple_eqb_eq in E1. subst.
    rewrite (proj2 (tuple_eqb_eq ys ys) eq_refl) in E2. discriminate.
  - apply tuple_eqb_eq in E2. subst.
    rewrite (proj2 (tuple_eqb_eq xs xs) eq_refl) in E1. discriminate.
Qed.

Lemma Emission_eq_type_guarded_iff (api : binding) (a b : Emission.t) :
  Emission.eq api a (Emission.AnEmission b) = Returns true
  <-> Emission.is_from api a (Emission.signal b) = Returns true
      /\ Emission.args a = Emission.args b.
Proof.
  unfold Emission.eq.
  destruct (Emission.is_from api a (Emission.signal b)) as [[ | ] | exc].
  - split.
    + intros H. injection H as H. apply tuple_eqb_eq in H. auto.
    + intros [_ H]. apply tuple_eqb_eq in H. now rewrite H.
  - split; [discriminate | intros [H _]; discriminate].
  - split; [discriminate | intros [H _]; discriminate].
Qed.

Lemma is_from_true (api : binding) (a : Emission.t) (s : SignalInstance) :
  Emission.is_from api a s = Returns true ->
  match api with
  | PYQT5 =>
      signal_attr (Emission.signal a) = signal_attr s
      /\ signal_repr (Emission.signal a) = signal_repr s
  | PYSIDE2 => signal_source (Emission.signal a) = signal_source s
  | OtherBinding => False
  end.
Proof.
  destruct api; simpl; intros H; try discriminate.
  - injection H as H. apply andb_true_iff in H as [H1 H2].
    apply String.eqb_eq in H1, H2. auto.
  - injection H as H. now apply Z.eqb_eq in H.
Qed.

(** X2: [==] between emissions does not depend on the side an
    emission stands on: [a == b] and [b == a] finish alike, with the
    same boolean or both raising. *)
Theorem Emission_eq_symmetric (api : binding) (a b : Emission.t) :
  Emission.eq api a (Emission.AnEmission b)
  = Emission.eq api b (Emission.AnEmission a).
Proof.
  unfold Emission.eq, Emission.is_from.
  destruct api; simpl; try reflexivity.
  - rewrite (String.eqb_sym (signal_attr (Emission.signal a))),
      (String.eqb_sym (signal_repr (Emission.signal a))),
      (tuple_eqb_sym (Emission.args a)).
    reflexivity.
  - rewrite (Z.eqb_sym (signal_source (Emission.signal a))),
      (tuple_eqb_sym (Emission.args a)).
    reflexivity.
Qed.

(** X3: [==] between emissions is transitive under either binding. *)
Theorem Emission_eq_transitive (api : binding) (a b c : Emission.t) :
  Emission.eq api a (Emission.AnEmission b) = Returns true ->
  Emission.eq api b (Emission.AnEmission c) = Returns true ->
  Emission.eq api a (Emission.AnEmission c) = Returns true.
Proof.
  intros Hab Hbc.
  apply Emission_eq_type_guarded_iff in Hab as [Hab Hargs].
  apply Emission_eq_type_guarded_iff in Hbc as [Hbc Hargs'].
  apply Emission_eq_type_guarded_iff. split; [ | congruence].
  apply is_from_true in Hab, Hbc.
  destruct api; simpl in *; try contradiction.
  - destruct Hab as [-> ->], Hbc as [-> ->]. now rewrite !String.eqb_refl.
  - rewrite Hab, Hbc. now rewrite Z.eqb_refl.
Qed.

Lemma Emission_eq_transitive_witness :
  Emission.eq PYQT5
    (Emission.mk (mkSignal "2moved(int,int)" "<bound signal moved of Widget>" 1) [VInt 1])
    (Emission.AnEmission
       (Emission.mk (mkSignal "2moved(int,int)" "<bound signal moved of Widget>" 3) [VInt 1]))
  = Returns true.
Proof.
  apply (Emission_eq_transitive PYQT5 _
           (Emission.mk (mkSignal "2moved(int,int)" "<bound signal moved of Widget>" 2) [VInt 1]));
    reflexivity.
Defined.

(* ================================================================== *)
(** * More on [open_emissions_channel] *)
(* ================================================================== *)

Lemma fire_all_state (firings : list (SignalInstance * list value)) (st : Emissions.t) :
  fire_all firings st
  = Emissions.mk (Emissions.channel st) (Emissions.connected st)
      (Emissions.pending st
       ++ flat_map (emissions_of (Emissions.connected st)) firings)
      (Emissions.nursery_open st) (Emissions.failure st).
Proof.
  unfold fire_all.
  revert st; induction firings as [ | [s args] rest IH]; intros st; simpl.
  - rewrite app_nil_r. destruct st; reflexivity.
  - rewrite IH. unfold Emissions.fire, emissions_of. simpl.
    now rewrite <- app_assoc.
Qed.


Lemma run_tasks_send_closed
    (tasks : list Emission.t) (ch : Channel.t) (f : option exception) :
  Channel.send_closed ch = true ->
  fst (Emissions.run_tasks tasks ch f) = ch.
Proof.
  revert f; induction tasks as [ | e rest IH]; intros f Hs; simpl.
  - reflexivity.
  - destruct f as [exc | ]; [now apply IH | ].
    unfold Channel.send. rewrite Hs. now apply IH.
Qed.




(** X6: once the subscription has been left its signals are
    disconnected: whatever is emitted afterwards starts no task and
    never reaches the channel. *)
Theorem emissions_after_close_not_delivered
    (st : Emissions.t) (later : list (SignalInstance * list value)) :
  Emissions.checkpoint (fire_all later (snd (close_emissions_channel st)))
  = snd (close_emissions_channel st).
Proof.
  rewrite fire_all_state.
  assert (Hnil : flat_map (emissions_of []) later = []).
  { induction later as [ | f rest IH]; simpl; auto. }
  unfold close_emissions_channel.
  destruct (Emissions.failure (Emissions.checkpoint _)) eqn:E; simpl;
    rewrite Hnil; reflexivity.
Qed.

(** X7: [Emissions.aclose()] may be repeated: the second call changes
    nothing. *)
Theorem aclose_idempotent (st : Emissions.t) :
  Emissions.aclose (Emissions.aclose st) = Emissions.aclose st.
Proof.
  unfold Emissions.aclose, Emissions.checkpoint. simpl.
  pose proof (run_tasks_send_closed (Emissions.pending st)
                (Channel.close_send (Emissions.channel st))
                (Emissions.failure st) eq_refl) as H.
  destruct (Emissions.run_tasks _ _ _) as [ch f]. simpl in *. subst ch.
  reflexivity.
Qed.

(** X8: [Emissions.aclose()] closes the channel but leaves the signals
    connected.  A subscribed signal that fires after it still starts
    its task, whose [send] fails with [ClosedResourceError]: nothing
    is added to the buffer, and that exception is what leaving the
    subscription then raises. *)
Theorem emission_after_aclose_fails
    (st : Emissions.t) (signal : SignalInstance) (args : list value) :
  Emissions.pending st = [] ->
  Emissions.failure st = None ->
  existsb (signal_eqb signal) (Emissions.connected st) = true ->
  let st' := Emissions.checkpoint
               (Emissions.fire signal args (Emissions.aclose st)) in
  Emissions.failure st' = Some (mkException ClosedResourceError [] [])
  /\ Channel.data (Emissions.channel st') = Channel.data (Emissions.channel st)
  /\ fst (close_emissions_channel st')
     = Raises (mkException ClosedResourceError [] []).
Proof.
  destruct st as [ch conn pend op f]. simpl. intros -> -> Hex.
  unfold Emissions.aclose, Emissions.checkpoint, Emissions.fire,
    close_emissions_channel. simpl.
  destruct (filter (signal_eqb signal) conn) as [ | c rest] eqn:Ef.
  - exfalso. apply existsb_exists in Hex as (x & Hin & Hx).
    assert (Hf : In x (filter (signal_eqb signal) conn))
      by (apply filter_In; auto).
    rewrite Ef in Hf. exact Hf.
  - simpl.
    pose proof (run_tasks_send_closed
                  (map (fun s => Emission.mk s args) rest)
                  (Channel.close_send ch)
                  (Some (mkException ClosedResourceError [] [])) eq_refl) as H.
    assert (Hfail : forall tasks c0 e,
               snd (Emissions.run_tasks tasks c0 (Some e)) = Some e).
    { induction tasks; simpl; auto. }
    specialize (Hfail (map (fun s => Emission.mk s args) rest)
                  (Channel.close_send ch)
                  (mkException ClosedResourceError [] [])).
    destruct (Emissions.run_tasks _ _ _) as [ch' f']. simpl in *. subst.
    simpl. auto.
Qed.

Lemma emission_after_aclose_fails_witness :
  fst (close_emissions_channel
         (Emissions.checkpoint
            (Emissions.fire sample_signal [VInt 1]
               (Emissions.aclose (open_emissions_channel [sample_signal])))))
  = Raises (mkException ClosedResourceError [] []).
Proof.
  apply (proj2 (proj2
    (emission_after_aclose_fails (open_emissions_channel [sample_signal])
       sample_signal [VInt 1] eq_refl eq_refl eq_refl))).
Defined.

(* ================================================================== *)
(** * [wait_signal] *)
(* ================================================================== *)

Lemma wait_signal_not_called (missed : list (list value)) :
  fold_left wait_signal.step (map Emit missed) wait_signal.NotCalled
  = wait_signal.NotCalled.
Proof. induction missed; simpl; auto. Qed.

Lemma wait_signal_idle (n : nat) :
  fold_left wait_signal.step (repeat Turn n)
    (wait_signal.Waiting (wait_signal.mk false None))
  = wait_signal.Waiting (wait_signal.mk false None).
Proof. induction n; simpl; auto. Qed.

Lemma wait_signal_emitted (seen : list (list value)) (last : list value)
    (f : wait_signal.frame) :
  fold_left wait_signal.step (map Emit (seen ++ [last])) (wait_signal.Waiting f)
  = wait_signal.Waiting (wait_signal.mk true (Some last)).
Proof.
  revert f; induction seen as [ | a rest IH]; intros f; simpl.
  - reflexivity.
  - apply IH.
Qed.

Lemma wait_signal_returned (rest : list tick) (r : option (list value)) :
  fold_left wait_signal.step rest (wait_signal.Returned r)
  = wait_signal.Returned r.
Proof. induction rest; simpl; auto. Qed.

(** X9: [wait_signal] returns the arguments of the last emission that
    happened between its call and the moment the task runs again.
    Emissions before the call are missed, turns offered before any
    emission do not wake the task, an emission that follows another
    before the task runs replaces the stored arguments, and whatever
    is emitted after the return changes nothing. *)
Theorem wait_signal_returns_last_emission
    (missed : list (list value)) (idle : nat)
    (seen : list (list value)) (last : list value) (rest : list tick) :
  wait_signal.run
    (map Emit missed ++ [Call] ++ repeat Turn idle
     ++ map Emit (seen ++ [last]) ++ [Turn] ++ rest)
  = wait_signal.Returned (Some last).
Proof.
  unfold wait_signal.run.
  rewrite !fold_left_app, wait_signal_not_called. simpl.
  rewrite wait_signal_idle, wait_signal_emitted. simpl.
  apply wait_signal_returned.
Qed.

(** The invariant behind the next theorem. *)
Lemma wait_signal_invariant (timeline : list tick) :
  match wait_signal.run timeline with
  | wait_signal.NotCalled => True
  | wait_signal.Waiting f =>
      exists before after,
        timeline = before ++ Call :: after
        /\ (wait_signal.event f = true ->
            exists args, wait_signal.result f = Some args /\ In (Emit args) after)
  | wait_signal.Returned r =>
      exists before after args,
        timeline = before ++ Call :: after
        /\ r = Some args /\ In (Emit args) after
  end.
Proof.
  unfold wait_signal.run.
  induction timeline as [ | t tl IH] using rev_ind; simpl; [exact I | ].
  rewrite fold_left_app. simpl.
  destruct (fold_left wait_signal.step tl wait_signal.NotCalled) as [ | f | r].
  - destruct t; simpl; try exact I.
    exists tl, []. split; [reflexivity | discriminate].
  - destruct IH as (before & after & -> & Hev). destruct t; simpl.
    + exists before, (after ++ [Emit args]). rewrite <- app_assoc. simpl.
      split; [reflexivity | ]. intros _. exists args.
      split; [reflexivity | apply in_or_app; right; left; reflexivity].
    + exists before, (after ++ [Call]). rewrite <- app_assoc. simpl.
      split; [reflexivity | ]. intros He. destruct (Hev He) as (args & Hr & Hin).
      exists args. split; [exact Hr | apply in_or_app; left; exact Hin].
    + destruct (wait_signal.event f) eqn:He.
      * destruct (Hev eq_refl) as (args & Hr & Hin).
        exists before, (after ++ [Turn]), args. rewrite <- app_assoc. simpl.
        split; [reflexivity | split; [exact Hr | apply in_or_app; left; exact Hin]].
      * exists before, (after ++ [Turn]). rewrite <- app_assoc. simpl.
        split; [reflexivity | ]. rewrite He. discriminate.
  - destruct IH as (before & after & args & -> & -> & Hin).
    exists before, (after ++ [t]), args. rewrite <- app_assoc. simpl.
    destruct t; (split; [reflexivity | split; [reflexivity | apply in_or_app; left; exact Hin]]).
Qed.

(** X10: whatever the timeline, when [wait_signal] has returned, what
    it returned is the argument tuple of an emission that happened
    after the call: it never returns [None], and never the arguments
    of an emission that came before the call. *)
Theorem wait_signal_returns_an_emission_after_the_call
    (timeline : list tick) (r : option (list value)) :
  wait_signal.run timeline = wait_signal.Returned r ->
  exists before after args,
    timeline = before ++ Call :: after
    /\ r = Some args
    /\ In (Emit args) after.
Proof.
  intros H. pose proof (wait_signal_invariant timeline) as Inv.
  rewrite H in Inv. exact Inv.
Qed.

Lemma wait_signal_returns_an_emission_witness :
  exists before after args,
    [Emit [VInt 0]; Call; Emit [VInt 1]; Emit [VInt 2]; Turn]
    = before ++ Call :: after
    /\ Some [VInt 2] = Some args
    /\ In (Emit args) after.
Proof.
  apply (wait_signal_returns_an_emission_after_the_call
           [Emit [VInt 0]; Call; Emit [VInt 1]; Emit [VInt 2]; Turn]
           (Some [VInt 2])).
  reflexivity.
Defined.

(** X11: without an emission after the call [wait_signal] does not
    return, however often the task is offered a turn and whatever was
    emitted before the call. *)
Theorem wait_signal_misses_earlier_emissions
    (missed : list (list value)) (idle : nat) :
  wait_signal.run (map Emit missed ++ [Call] ++ repeat Turn idle)
  = wait_signal.Waiting (wait_signal.mk false None).
Proof.
  unfold wait_signal.run.
  rewrite !fold_left_app, wait_signal_not_called. simpl.
  apply wait_signal_idle.
Qed.

(* ================================================================== *)
(** * [wait_signal_context] *)
(* ================================================================== *)

Lemma context_body_keeps_event (body : list context_tick) (event : bool) :
  forallb wait_signal_context.within_body body = true ->
  exists event',
    fold_left wait_signal_context.step body (wait_signal_context.InBody event)
    = wait_signal_context.InBody event'
    /\ (event = true -> event' = true).
Proof.
  revert event; induction body as [ | t rest IH]; intros event Hb; simpl.
  - exists event. auto.
  - simpl in Hb. apply andb_true_iff in Hb as [Ht Hrest].
    destruct t; simpl in Ht; try discriminate; simpl.
    + destruct (IH true Hrest) as (ev & Hev & Htrue).
      exists ev. split; [exact Hev | intros _; apply Htrue; reflexivity].
    + apply IH. exact Hrest.
Qed.

Lemma context_exited (rest : list context_tick) (r : result unit) :
  fold_left wait_signal_context.step rest (wait_signal_context.Exited r)
  = wait_signal_context.Exited r.
Proof. induction rest; simpl; auto. Qed.

(** X12: an emission at any point of the body is not missed: when the
    body then ends, [wait_signal_context] is left at once, normally,
    without waiting for a further emission. *)
Theorem wait_signal_context_emission_in_body
    (body1 body2 rest : list context_tick) (args : list value) :
  forallb wait_signal_context.within_body body1 = true ->
  forallb wait_signal_context.within_body body2 = true ->
  wait_signal_context.run
    ([Enter] ++ body1 ++ [EmitInContext args] ++ body2 ++ [BodyReturns] ++ rest)
  = wait_signal_context.Exited (Returns tt).
Proof.
  intros H1 H2. unfold wait_signal_context.run.
  rewrite !fold_left_app. simpl.
  destruct (context_body_keeps_event body1 false H1) as (ev1 & -> & _). simpl.
  destruct (context_body_keeps_event body2 true H2) as (ev2 & -> & Hev). simpl.
  rewrite (Hev eq_refl). apply context_exited.
Qed.

Lemma wait_signal_context_emission_in_body_witness :
  wait_signal_context.run
    ([Enter] ++ [TurnInContext] ++ [EmitInContext [VInt 1]] ++ [TurnInContext]
     ++ [BodyReturns] ++ [EmitInContext [VInt 2]])
  = wait_signal_context.Exited (Returns tt).
Proof.
  apply (wait_signal_context_emission_in_body [TurnInContext] [TurnInContext]
           [EmitInContext [VInt 2]] [VInt 1]); reflexivity.
Defined.

(** X13: when nothing was emitted during the body, leaving
    [wait_signal_context] waits: the task stays parked whatever turns
    it is offered, and goes on, normally, at the first turn after the
    next emission. *)
Theorem wait_signal_context_waits_at_exit
    (turns turns' : nat) (args : list value) (rest : list context_tick) :
  wait_signal_context.run
    ([Enter] ++ repeat TurnInContext turns ++ [BodyReturns]
     ++ repeat TurnInContext turns')
  = wait_signal_context.WaitingAtExit false
  /\ wait_signal_context.run
       ([Enter] ++ repeat TurnInContext turns ++ [BodyReturns]
        ++ repeat TurnInContext turns'
        ++ [EmitInContext args; TurnInContext] ++ rest)
     = wait_signal_context.Exited (Returns tt).
Proof.
  assert (Hbody : forall n,
             fold_left wait_signal_context.step (repeat TurnInContext n)
               (wait_signal_context.InBody false)
             = wait_signal_context.InBody false).
  { induction n; simpl; auto. }
  assert (Hexit : forall n,
             fold_left wait_signal_context.step (repeat TurnInContext n)
               (wait_signal_context.WaitingAtExit false)
             = wait_signal_context.WaitingAtExit false).
  { induction n; simpl; auto. }
  unfold wait_signal_context.run. split.
  - rewrite !fold_left_app. simpl. rewrite Hbody. simpl. apply Hexit.
  - rewrite !fold_left_app. simpl. rewrite Hbody. simpl. rewrite Hexit. simpl.
    apply context_exited.
Qed.

(** X14: when the body raises, the exception leaves
    [wait_signal_context] at once, whether or not the signal was
    emitted: the exit does not wait, and nothing emitted later
    matters. *)
Theorem wait_signal_context_body_raises
    (body rest : list context_tick) (e : exception) :
  forallb wait_signal_context.within_body body = true ->
  wait_signal_context.run ([Enter] ++ body ++ [BodyRaises e] ++ rest)
  = wait_signal_context.Exited (Raises e).
Proof.
  intros Hb. unfold wait_signal_context.run.
  rewrite !fold_left_app. simpl.
  destruct (context_body_keeps_event body false Hb) as (ev & -> & _). simpl.
  apply context_exited.
Qed.

Lemma wait_signal_context_body_raises_witness :
  wait_signal_context.run
    ([Enter] ++ [TurnInContext] ++ [BodyRaises sample_error] ++ [TurnInContext])
  = wait_signal_context.Exited (Raises sample_error).
Proof.
  apply (wait_signal_context_body_raises [TurnInContext] [TurnInContext]
           sample_error).
  reflexivity.
Defined.

(* ================================================================== *)
(** * What [trio_main] returns *)
(* ================================================================== *)

Lemma existsb_rev_eq {A : Type} (f : A -> bool) (l : list A) :
  existsb f (rev l) = existsb f l.
Proof.
  induction l as [ | a l IH]; simpl; [reflexivity | ].
  rewrite existsb_app, IH. simpl. rewrite orb_false_r. apply orb_comm.
Qed.

Lemma call_slot_scope (sl : slot) (s : state) (n : nat) (c : bool) :
  Runner.cancel_scope (self s) = Some (mkCancelScope n c) ->
  Runner.cancel_scope (self (snd (call_slot sl s)))
  = Some (mkCancelScope n (c || cancels_scope n sl)).
Proof.
  intros Hc. destruct sl as [j | name]; simpl.
  - unfold CancelScope_cancel_call, bind, emit, set_self, modify, cancels_scope.
    simpl. rewrite Hc. simpl. rewrite (Nat.eqb_sym n j).
    destruct (Nat.eqb j n) eqn:E; simpl.
    + apply Nat.eqb_eq in E. subst. now rewrite orb_true_r.
    + now rewrite Hc, orb_false_r.
  - unfold cancels_scope. simpl. now rewrite Hc, orb_false_r.
Qed.

Lemma call_slots_scope (slots : list slot) (s : state) (n : nat) (c : bool) :
  Runner.cancel_scope (self s) = Some (mkCancelScope n c) ->
  Runner.cancel_scope (self (snd (call_slots slots s)))
  = Some (mkCancelScope n (c || existsb (cancels_scope n) slots)).
Proof.
  revert s c; induction slots as [ | sl rest IH]; intros s c Hc; simpl.
  - now rewrite Hc, orb_false_r.
  - unfold bind.
    pose proof (call_slot_scope sl s n c Hc) as H1.
    pose proof (call_slot_only_cancels sl s) as [Hr _].
    destruct (call_slot sl s) as [r s1]. simpl in *. subst r.
    rewrite (IH s1 _ H1). now rewrite orb_assoc.
Qed.

Lemma only_cancels_application (s s' : state) :
  only_cancels s s' ->
  Runner.application (self s') = Runner.application (self s).
Proof. intros (d & c & -> & _). reflexivity. Qed.

(** [run_guest_steps] against [guest_outcome]. *)
Lemma run_guest_steps_spec
    (steps : list guest_step) (final : result value) (s : state)
    (n : nat) (c : bool) (app : QGuiApplication) :
  Runner.cancel_scope (self s) = Some (mkCancelScope n c) ->
  Runner.application (self s) = Some app ->
  let reaches := existsb (cancels_scope n) (lastWindowClosed app) in
  fst (run_guest_steps steps final s)
  = fst (guest_outcome reaches steps final c)
  /\ Runner.cancel_scope (self (snd (run_guest_steps steps final s)))
     = Some (mkCancelScope n (snd (guest_outcome reaches steps final c))).
Proof.
  revert s c; induction steps as [ | step rest IH]; intros s c Hc Happ; simpl.
  - destruct final; simpl; auto.
  - destruct step.
    + unfold emit_lastWindowClosed, the_application, bind, gets. simpl.
      rewrite Happ. simpl.
      pose proof (call_slots_scope (rev (lastWindowClosed app)) s n c Hc) as H1.
      pose proof (call_slots_only_cancels (rev (lastWindowClosed app)) s) as [Hr Ho].
      apply only_cancels_application in Ho.
      destruct (call_slots (rev (lastWindowClosed app)) s) as [r s1].
      simpl in *. subst r. rewrite existsb_rev_eq in H1.
      rewrite Happ in Ho. exact (IH s1 _ H1 Ho).
    + unfold bind, gets. simpl. rewrite Hc. simpl.
      destruct c; simpl; [auto | ]. exact (IH s false Hc Happ).
Qed.

(** What [trio_main] returns, from how the steps of the entry function
    come out once the connection, if any, is made. *)
Lemma trio_main_result
    (async_fn : async_fn_t) (args : list value) (s : state) (app : QGuiApplication) :
  Runner.application (self s) = Some app ->
  let reaches :=
    quitOnLastWindowClosed app
    || existsb (cancels_scope (scopes_created s)) (lastWindowClosed app) in
  let out :=
    guest_outcome reaches (fst (async_fn_body async_fn args))
      (snd (async_fn_body async_fn args)) false in
  fst (trio_main async_fn args s)
  = match fst out with
    | Returns v => Returns v
    | Raises e =>
        match exc_type e with
        | Cancelled => if snd out then Returns VNone else Raises e
        | _ => Raises e
        end
    end.
Proof.
  destruct s as [[a q re dc outs cs] stacks n tr]; simpl.
  intros ->. destruct app as [quits slots].
  unfold trio_main, await.
  generalize (fst (async_fn_body async_fn args)) as steps.
  generalize (snd (async_fn_body async_fn args)) as final.
  intros final steps.
  destruct quits; simpl;
    unfold with_CancelScope, with_ExitStack, enter_context, cm_enter,
      set_lastWindowClosed, the_application, set_exit_stacks, try_finally,
      attempt, bind, gets, emit, set_self, modify, ret; simpl;
    match goal with
    | |- context [run_guest_steps steps final ?s1] =>
        pose proof (run_guest_steps_only_cancels steps final s1) as H;
        pose proof (run_guest_steps_spec steps final s1 n false _ eq_refl eq_refl)
          as [Hres Hscope];
        destruct (run_guest_steps steps final s1) as [r s2]
    end;
    simpl in H; destruct H as (during & scope & -> & Hd);
    simpl in Hres, Hscope; subst r scope;
    unfold cancels_scope in *; simpl in *;
    rewrite ?Nat.eqb_refl in *; simpl in *;
    unfold scope_cancelled, bind, gets, ret, raise; simpl;
    rewrite ?Nat.eqb_refl; simpl;
    match goal with
    | |- context [guest_outcome ?b steps final false] =>
        destruct (guest_outcome b steps final false) as [[v | e] c]
    end; simpl; try reflexivity;
    destruct (exc_type e); simpl; try reflexivity;
    destruct c; reflexivity.
Qed.

Lemma guest_outcome_unreached (steps : list guest_step) (final : result value) :
  guest_outcome false steps final false = (final, false).
Proof.
  induction steps as [ | [ | ] rest IH]; simpl; auto.
Qed.

Lemma guest_outcome_once_cancelled
    (reaches : bool) (mid post : list guest_step) (final : result value) :
  guest_outcome reaches (mid ++ Checkpoint :: post) final true
  = (Raises new_Cancelled, true).
Proof.
  induction mid as [ | [ | ] rest IH]; simpl; auto.
Qed.

Lemma guest_outcome_cancelled
    (pre mid post : list guest_step) (final : result value) (c : bool) :
  guest_outcome true (pre ++ LastWindowClosed :: mid ++ Checkpoint :: post) final c
  = (Raises new_Cancelled, true).
Proof.
  revert c; induction pre as [ | [ | ] rest IH]; intros c; simpl.
  - rewrite orb_true_r. apply guest_outcome_once_cancelled.
  - apply IH.
  - destruct c; [reflexivity | apply IH].
Qed.

Lemma nothing_absorbed (final : result value) :
  match final with
  | Returns v => Returns v
  | Raises e =>
      match exc_type e with
      | Cancelled => if false then Returns VNone else Raises e
      | _ => Raises e
      end
  end = final.
Proof.
  destruct final as [v | e]; [reflexivity | ]. destruct (exc_type e); reflexivity.
Qed.

(** With a newly created application (quit-on-last-window-closed off,
    nothing connected) [trio_main] hands on the entry function's own
    result. *)
Lemma trio_main_hands_on_the_result_aux
    (async_fn : async_fn_t) (args : list value) (s : state) :
  Runner.application (self s) = Some (mkApplication false []) ->
  fst (trio_main async_fn args s) = snd (async_fn_body async_fn args).
Proof.
  intros Happ.
  rewrite (trio_main_result async_fn args s _ Happ). simpl.
  rewrite guest_outcome_unreached. simpl. apply nothing_absorbed.
Qed.

(** X15: when the application does not quit on the last window closed
    (and no slot already connected to [lastWindowClosed] is the new
    scope's [cancel]), [trio_main] connects nothing that could cancel
    the guest: whatever windows close meanwhile, it returns what the
    entry function returns and raises what it raises. *)
Theorem trio_main_hands_on_the_result
    (async_fn : async_fn_t) (args : list value) (s : state) (app : QGuiApplication) :
  Runner.application (self s) = Some app ->
  quitOnLastWindowClosed app = false ->
  existsb (cancels_scope (scopes_created s)) (lastWindowClosed app) = false ->
  fst (trio_main async_fn args s) = snd (async_fn_body async_fn args).
Proof.
  intros Happ Hq Hs.
  rewrite (trio_main_result async_fn args s app Happ). simpl.
  rewrite Hq, Hs. simpl. rewrite guest_outcome_unreached. simpl.
  apply nothing_absorbed.
Qed.

Lemma trio_main_hands_on_the_result_witness :
  fst (trio_main sample_async_fn []
         (initial_state (Runner.new (Some (mkApplication false [OtherSlot "on_closed"]))
                           true None)))
  = Returns (VInt 5).
Proof.
  apply (trio_main_hands_on_the_result sample_async_fn []
           (initial_state (Runner.new (Some (mkApplication false [OtherSlot "on_closed"]))
                             true None))
           (mkApplication false [OtherSlot "on_closed"])
           eq_refl eq_refl eq_refl).
Defined.

(** X16: when the application quits on the last window closed, closing
    the last window while the entry function runs cancels the guest:
    if a checkpoint of the entry function follows, [trio_main] returns
    [None], whatever the entry function would have returned or raised
    later. *)
Theorem trio_main_cancelled_when_last_window_closes
    (async_fn : async_fn_t) (args : list value) (s : state) (app : QGuiApplication)
    (pre mid post : list guest_step) :
  Runner.application (self s) = Some app ->
  quitOnLastWindowClosed app = true ->
  fst (async_fn_body async_fn args)
  = pre ++ LastWindowClosed :: mid ++ Checkpoint :: post ->
  fst (trio_main async_fn args s) = Returns VNone.
Proof.
  intros Happ Hq Hsteps.
  rewrite (trio_main_result async_fn args s app Happ). simpl.
  rewrite Hq, Hsteps. simpl. rewrite guest_outcome_cancelled. reflexivity.
Qed.

Lemma trio_main_cancelled_witness :
  fst (trio_main sample_async_fn []
         (initial_state (Runner.new (Some sample_application) true None)))
  = Returns VNone.
Proof.
  apply (trio_main_cancelled_when_last_window_closes sample_async_fn []
           (initial_state (Runner.new (Some sample_application) true None))
           sample_application [] [] []
           eq_refl eq_refl eq_refl).
Defined.

(* ================================================================== *)
(** * The module-level [run], end to end *)
(* ================================================================== *)

(** Everything [qtrio.run] does, in order. *)
Lemma qtrio_run_spec
    (async_fn : async_fn_t) (args : list value)
    (cb : option done_callback_t) (host : host_loop) :
  let guest := Outcome.capture (snd (async_fn_body async_fn args)) in
  let trio_field := if guest_finishes host then Some guest else None in
  let qt_outcome := outcome_from_application_return_code (return_code host) in
  let recorded := Outcomes.mk None (Some guest) in
  exists during : list call,
    forallb is_cancel_call during = true
    /\ fst (qtrio.run async_fn args cb host)
       = Returns (Outcomes.mk (Some qt_outcome) trio_field)
    /\ trace (snd (qtrio.run async_fn args cb host))
       = NewQApplication :: SetQuitOnLastWindowClosed false
         :: StartGuestRun (async_fn_name async_fn) args :: ApplicationExec
         :: (if guest_finishes host
             then
               CancelScopeEnter 0 :: CallAsyncFn (async_fn_name async_fn) args
               :: during
               ++ CancelScopeExit 0
               :: AssignOutcomes Outcomes.empty recorded
               :: Print guest
               :: match guest with
                  | Outcome.Error exc =>
                      [PrintException (exc_type exc) exc (exc_traceback exc)]
                  | Outcome.Value _ => []
                  end
               ++ match cb with
                  | Some c =>
                      CallDoneCallback (callback_name c) recorded
                      :: match callback_call c recorded with
                         | Returns _ => [ApplicationQuit]
                         | Raises e => [UnhandledInHostLoop e]
                         end
                  | None => [ApplicationQuit]
                  end
             else [])
         ++ [AssignOutcomes (Outcomes.mk None trio_field)
               (Outcomes.mk (Some qt_outcome) trio_field)].
Proof.
  simpl.
  unfold qtrio.run, run, exec_, guest_run, the_application, attempt,
    assign_outcomes, initial_state, Runner.new, bind, gets, emit, set_self,
    modify, ret, raise.
  destruct (guest_finishes host); simpl.
  2: { exists []. auto. }
  match goal with
  | |- context [trio_main async_fn args ?s1] =>
      destruct (trio_main_state async_fn args s1 (mkApplication false []) eq_refl)
        as (during & sc & Hd & Hs);
      pose proof (trio_main_hands_on_the_result_aux async_fn args s1 eq_refl) as Hres;
      destruct (trio_main async_fn args s1) as [res s2]
  end.
  simpl in Hs, Hres. subst s2 res. exists during. split; [exact Hd | ].
  unfold trio_done, assign_outcomes, call_done_callback, the_application,
    bind, gets, emit, set_self, modify, ret, raise; simpl.
  destruct (snd (async_fn_body async_fn args)) as [v | e]; simpl;
    (destruct cb as [c | ]; simpl;
     [destruct (callback_call c _); simpl | ]);
    repeat (rewrite <- app_assoc; simpl); auto.
Qed.

Lemma done_callback_calls_app (a b : list call) :
  done_callback_calls (a ++ b) = done_callback_calls a ++ done_callback_calls b.
Proof.
  induction a as [ | c a IH]; simpl; [reflexivity | ].
  destruct c; simpl; rewrite IH; reflexivity.
Qed.

Lemma done_callback_calls_cancels (during : list call) :
  forallb is_cancel_call during = true -> done_callback_calls during = [].
Proof.
  induction during as [ | c rest IH]; simpl; [reflexivity | ].
  destruct c; simpl; try discriminate. exact IH.
Qed.

Lemma touches_application_cancels (during : list call) :
  forallb is_cancel_call during = true -> filter touches_application during = [].
Proof.
  induction during as [ | c rest IH]; simpl; [reflexivity | ].
  destruct c; simpl; try discriminate. exact IH.
Qed.



(** X18: under [qtrio.run] the done callback is called exactly once if
    the guest finishes while the host loop runs, and not at all
    otherwise; the [Outcomes] it is given hold the guest's outcome in
    [trio] and nothing yet in [qt]. *)
Theorem qtrio_run_done_callback
    (async_fn : async_fn_t) (args : list value)
    (cb : done_callback_t) (host : host_loop) :
  done_callback_calls (trace (snd (qtrio.run async_fn args (Some cb) host)))
  = if guest_finishes host
    then [Outcomes.mk None
            (Some (Outcome.capture (snd (async_fn_body async_fn args))))]
    else [].
Proof.
  destruct (qtrio_run_spec async_fn args (Some cb) host)
    as (during & Hd & _ & Htr).
  simpl in Htr. rewrite Htr. simpl.
  destruct (guest_finishes host); simpl; [ | reflexivity].
  repeat (rewrite done_callback_calls_app; simpl).
  rewrite (done_callback_calls_cancels during Hd). simpl.
  destruct (snd (async_fn_body async_fn args)) as [v | e]; simpl;
    destruct (callback_call cb _); reflexivity.
Qed.

(** X19: [qtrio.run] creates its application and switches its
    quit-on-last-window-closed off, and that is all it does to it: no
    slot is ever connected to [lastWindowClosed], so closing windows
    does not cancel the guest. *)
Theorem qtrio_run_application
    (async_fn : async_fn_t) (args : list value)
    (cb : option done_callback_t) (host : host_loop) :
  filter touches_application (trace (snd (qtrio.run async_fn args cb host)))
  = [NewQApplication; SetQuitOnLastWindowClosed false].
Proof.
  destruct (qtrio_run_spec async_fn args cb host) as (during & Hd & _ & Htr).
  simpl in Htr. rewrite Htr. simpl.
  destruct (guest_finishes host); simpl; [ | reflexivity].
  repeat (rewrite filter_app; simpl).
  rewrite (touches_application_cancels during Hd). simpl.
  destruct (snd (async_fn_body async_fn args)) as [v | e]; simpl;
    (destruct cb as [c | ]; simpl; [destruct (callback_call c _) | ]);
    reflexivity.
Qed.

(* ================================================================== *)
(** * More on [Runner.run] and [Runner.trio_done] *)
(* ================================================================== *)


(** With [execute_application=False], [run] makes sure there is
    an application, starts the guest run and returns the empty
    [Outcomes] at once: the host loop is not entered, the entry
    function has not been called, and nothing is recorded. *)
Theorem run_without_executing_application
    (app : option QGuiApplication) (quit : bool) (cb : option done_callback_t)
    (async_fn : async_fn_t) (args : list value) (host : host_loop) :
  run async_fn args false host (initial_state (Runner.new app quit cb))
  = (Returns Outcomes.empty,
     mkState
       (Runner.mk
          (match app with Some a => Some a | None => Some (mkApplication false []) end)
          quit ReenterObject cb Outcomes.empty None)
       [] 0
       (match app with
        | Some _ => []
        | None => [NewQApplication; SetQuitOnLastWindowClosed false]
        end
        ++ [StartGuestRun (async_fn_name async_fn) args])).
Proof. destruct app; reflexivity. Qed.

(** X21: when the done callback raises, [trio_done] lets the exception
    through and never reaches the request to quit: the guest's outcome
    is recorded and printed, but the application is not asked to
    quit. *)
Theorem trio_done_callback_raises
    (s : state) (o : Outcome.t) (cb : done_callback_t) (e : exception) :
  Runner.done_callback (self s) = Some cb ->
  callback_call cb (Outcomes.evolve_trio (Runner.outcomes (self s)) o)
  = Raises e ->
  let out := trio_done o s in
  fst out = Raises e
  /\ Runner.outcomes (self (snd out))
     = Outcomes.evolve_trio (Runner.outcomes (self s)) o
  /\ trace (snd out)
     = trace s
       ++ AssignOutcomes (Runner.outcomes (self s))
            (Outcomes.evolve_trio (Runner.outcomes (self s)) o)
       :: Print o
       :: match o with
          | Outcome.Error exc =>
              [PrintException (exc_type exc) exc (exc_traceback exc)]
          | Outcome.Value _ => []
          end
       ++ [CallDoneCallback (callback_name cb)
             (Outcomes.evolve_trio (Runner.outcomes (self s)) o)].
Proof.
  destruct s as [[a q re dc outs cs] stacks n tr]; simpl.
  intros -> Hcb.
  unfold trio_done, assign_outcomes, call_done_callback, the_application,
    bind, gets, emit, set_self, modify, ret, raise; simpl.
  destruct o as [v | exc]; simpl; rewrite Hcb; simpl;
    repeat (rewrite <- app_assoc; simpl); auto.
Qed.

Lemma trio_done_callback_raises_witness :
  fst (trio_done (Outcome.Value (VInt 1))
         (initial_state
            (Runner.new (Some sample_application) true
               (Some (mkDoneCallback "failing" (fun _ => Raises sample_error))))))
  = Raises sample_error.
Proof.
  apply (proj1
    (trio_done_callback_raises
       (initial_state
          (Runner.new (Some sample_application) true
             (Some (mkDoneCallback "failing" (fun _ => Raises sample_error)))))
       (Outcome.Value (VInt 1))
       (mkDoneCallback "failing" (fun _ => Raises sample_error))
       sample_error eq_refl eq_refl)).
Defined.

Lemma trio_done_on_success_witness :
  trace (snd (trio_done (Outcome.Value (VInt 1))
                (initial_state
                   (Runner.new (Some sample_application) true
                      (Some sample_done_callback)))))
  = [] ++ [AssignOutcomes Outcomes.empty
             (Outcomes.evolve_trio Outcomes.empty (Outcome.Value (VInt 1)));
           Print (Outcome.Value (VInt 1));
           CallDoneCallback "on_done"
             (Outcomes.evolve_trio Outcomes.empty (Outcome.Value (VInt 1)));
           ApplicationQuit].
Proof.
  exact (trio_done_on_success
           (initial_state
              (Runner.new (Some sample_application) true (Some sample_done_callback)))
           (VInt 1) sample_done_callback sample_application
           eq_refl eq_refl eq_refl eq_refl).
Defined.

Lemma trio_done_without_quit_witness :
  ~ In ApplicationQuit
      (trace (snd (trio_done (Outcome.Value (VInt 1))
                     (initial_state
                        (Runner.new (Some sample_application) false
                           (Some sample_done_callback)))))).
Proof.
  apply (trio_done_without_quit
           (initial_state
              (Runner.new (Some sample_application) false (Some sample_done_callback)))
           (Outcome.Value (VInt 1)) eq_refl).
  simpl. intros H. exact H.
Defined.

Lemma posted_event_calls_fn_witness :
  trace (snd (run_sync_soon_threadsafe 1000 (mkThunk "guest_tick" (Returns VNone))
                (initial_state (Runner.new (Some sample_application) true None))))
  = [] ++ [PostEvent (create_reenter_event 1000 (mkThunk "guest_tick" (Returns VNone)))].
Proof.
  apply (proj1
    (posted_event_calls_fn 1000 (mkThunk "guest_tick" (Returns VNone))
       (initial_state (Runner.new (Some sample_application) true None))
       sample_application eq_refl)).
Defined.
